(** * find_system_data.py: a shallow embedding of the System Data finder

    The script shells out to [du] and [find], parses their text output,
    sorts the collected records and prints a table.  Strings are modelled
    as ASCII [string]s (Python's [len] is then [String.length]); the
    external utilities are modelled by an abstract runner that maps an
    argument vector to the outcome of [subprocess.run]. *)

From Stdlib Require Import Bool Arith ZArith Lia List Ascii String Sorting
  Permutation QArith.
Import ListNotations.
Open Scope Z_scope.
Open Scope string_scope.

(* ------------------------------------------------------------------ *)
(** ** Python exceptions and results *)

Inductive py_exc :=
| TimeoutExpired      (* subprocess.TimeoutExpired *)
| ValueError
| IndexError
| PermissionError     (* a subclass of OSError *)
| OSError.

(** A Python computation that either raises or returns. *)
Definition py_result (A : Type) := (py_exc + A)%type.

Definition py_ret {A} (a : A) : py_result A := inr a.
Definition py_raise {A} (e : py_exc) : py_result A := inl e.
Definition py_bind {A B} (m : py_result A) (k : A -> py_result B) : py_result B :=
  match m with
  | inl e => inl e
  | inr a => k a
  end.

Notation "x <- m ;; k" := (py_bind m (fun x => k))
  (at level 61, m at next level, right associativity).

(** [try: body except (caught...): handler] *)
Definition py_try {A} (body : py_result A) (caught : py_exc -> bool)
  (handler : py_result A) : py_result A :=
  match body with
  | inl e => if caught e then handler else inl e
  | inr a => inr a
  end.

(* ------------------------------------------------------------------ *)
(** ** Python string operations used by the script *)

Definition nl : string := String (ascii_of_nat 10) EmptyString.
Definition cr : string := String (ascii_of_nat 13) EmptyString.
Definition tab : ascii := ascii_of_nat 9.
Definition newline : ascii := ascii_of_nat 10.

(** [str.isspace] on an ASCII character: \t \n \v \f \r, the separators
    0x1c..0x1f and the space. *)
Definition py_isspace (c : ascii) : bool :=
  let n := nat_of_ascii c in
  (Nat.leb 9 n && Nat.leb n 13) || (Nat.leb 28 n && Nat.leb n 31) || Nat.eqb n 32.

Definition flush (cur : list ascii) : list string :=
  match cur with
  | [] => []
  | _ => [string_of_list_ascii (rev cur)]
  end.

Fixpoint split_ws_go (s : string) (cur : list ascii) : list string :=
  match s with
  | EmptyString => flush cur
  | String c s' =>
      if py_isspace c then (flush cur ++ split_ws_go s' [])%list
      else split_ws_go s' (c :: cur)
  end.

(** [s.split()]: maximal runs of non-whitespace characters. *)
Definition py_split_ws (s : string) : list string := split_ws_go s [].

Fixpoint split_sep_go (sep : ascii) (s : string) (cur : list ascii) : list string :=
  match s with
  | EmptyString => [string_of_list_ascii (rev cur)]
  | String c s' =>
      if Ascii.eqb c sep then string_of_list_ascii (rev cur) :: split_sep_go sep s' []
      else split_sep_go sep s' (c :: cur)
  end.

(** [s.split(sep)] for a one-character separator: always at least one
    piece, empty pieces kept. *)
Definition py_split_sep (sep : ascii) (s : string) : list string :=
  split_sep_go sep s [].

Fixpoint lstrip_list (l : list ascii) : list ascii :=
  match l with
  | c :: l' => if py_isspace c then lstrip_list l' else l
  | [] => []
  end.

(** [s.strip()] *)
Definition py_strip (s : string) : string :=
  string_of_list_ascii
    (rev (lstrip_list (rev (lstrip_list (list_ascii_of_string s))))).

Definition digit_value (c : ascii) : option Z :=
  let n := nat_of_ascii c in
  if Nat.leb 48 n && Nat.leb n 57 then Some (Z.of_nat (n - 48)%nat) else None.

(** Decimal digits with single underscores between digits. *)
Fixpoint parse_digits (l : list ascii) (acc : Z) (after_digit : bool) : option Z :=
  match l with
  | [] => if after_digit then Some acc else None
  | c :: l' =>
      match digit_value c with
      | Some d => parse_digits l' (acc * 10 + d) true
      | None =>
          if Ascii.eqb c "_"%char && after_digit
          then parse_digits l' acc false else None
      end
  end.

(** [int(s)] in base 10: surrounding whitespace, an optional sign, then
    digits; [None] where Python raises ValueError. *)
Definition py_int (s : string) : option Z :=
  match list_ascii_of_string (py_strip s) with
  | "-"%char :: l => option_map Z.opp (parse_digits l 0 false)
  | "+"%char :: l => parse_digits l 0 false
  | l => parse_digits l 0 false
  end.

Definition py_int_exc (s : string) : py_result Z :=
  match py_int s with
  | Some z => py_ret z
  | None => py_raise ValueError
  end.

(** [xs[0]] *)
Definition py_index0 {A} (xs : list A) : py_result A :=
  match xs with
  | x :: _ => py_ret x
  | [] => py_raise IndexError
  end.

Fixpoint spaces (n : nat) : string :=
  match n with
  | O => EmptyString
  | S n' => String " " (spaces n')
  end.

(** [f"{s:<w}"] and [f"{s:>w}"]: pad, never truncate. *)
Definition pad_right (w : nat) (s : string) : string := s ++ spaces (w - length s)%nat.
Definition pad_left (w : nat) (s : string) : string := spaces (w - length s)%nat ++ s.

(** [s[-k:]] for [k > 0]. *)
Definition py_suffix (s : string) (k : nat) : string :=
  if Nat.leb k (length s) then substring (length s - k)%nat k s else s.

Fixpoint repeat_string (n : nat) (s : string) : string :=
  match n with
  | O => EmptyString
  | S n' => s ++ repeat_string n' s
  end.

(* ------------------------------------------------------------------ *)
(** ** The environment: filesystem and external utilities *)

(** Outcome of [subprocess.run(argv, capture_output=True, text=True,
    timeout=...)]: the process ran (exit status and standard output), the
    timeout expired, or spawning failed with an OSError. *)
Inductive run_outcome :=
| RunDone (returncode : Z) (stdout : string)
| RunTimeout
| RunOSError.

(** The environment.  [fs_run] gives the standard output as the text
    [text=True] hands to the code, i.e. already decoded with universal
    newlines.  [Path(p).exists()] either returns [fs_exists p] or, when
    [fs_exists_err p] holds, raises PermissionError (a stat denied by a
    parent directory; Python up to 3.12 lets that escape).  Inside a
    [try] that catches PermissionError such a call has the outcome of a
    path that does not exist, which [fs_exists_err_spec] records by making
    [fs_exists p] false there; the two calls outside any [try] (the scan
    and the key locations) test [fs_exists_err] first. *)
Record FS := {
  fs_exists : string -> bool;            (* Path(p).exists() when it returns *)
  fs_is_dir : string -> bool;            (* Path(p).is_dir() *)
  fs_run : list string -> run_outcome;   (* subprocess.run(argv, ...) *)
  fs_exists_err : string -> bool;        (* Path(p).exists() raises *)
  fs_exists_err_spec : forall p, fs_exists_err p = true -> fs_exists p = false
}.

Definition subprocess_run (fs : FS) (argv : list string)
  : py_result (Z * string) :=
  match fs_run fs argv with
  | RunDone rc out => py_ret (rc, out)
  | RunTimeout => py_raise TimeoutExpired
  | RunOSError => py_raise OSError
  end.

(** [except (subprocess.TimeoutExpired, ValueError, PermissionError, OSError)] *)
Definition probe_caught (e : py_exc) : bool :=
  match e with
  | TimeoutExpired | ValueError | PermissionError | OSError => true
  | IndexError => false
  end.

Definition du_argv (path : string) : list string := ["du"; "-sk"; path].

(** [get_directory_size(path) -> (size_in_bytes, success)] *)
Definition get_directory_size (fs : FS) (path : string) : py_result (Z * bool) :=
  py_try
    (if negb (fs_exists fs path) then py_ret (0, false) else
     r <- subprocess_run fs (du_argv path) ;;
     let '(returncode, stdout) := r in
     if Z.eqb returncode 0 then
       tok <- py_index0 (py_split_ws stdout) ;;
       size_kb <- py_int_exc tok ;;
       py_ret (size_kb * 1024, true)
     else py_ret (0, false))
    probe_caught
    (py_ret (0, false)).

(* ------------------------------------------------------------------ *)
(** ** Float display: [bytes_to_gb] and the [.2f] format *)

(** [bytes_size / (1024 ** 3)] is Python's correctly rounded true division;
    dividing by a power of two is exact, so the float is the quotient of
    [bytes_size] rounded to 53 significant bits (half to even) and [2^30]
    (overflow, only past 2^1000 bytes, is not modelled). *)
Definition round53 (b : Z) : Z :=
  let a := Z.abs b in
  let nbits := Z.log2 a + 1 in
  if Z.leb nbits 53 then b else
  let sh := nbits - 53 in
  let q := a / 2 ^ sh in
  let r := a mod 2 ^ sh in
  let half := 2 ^ (sh - 1) in
  let q' := if Z.ltb half r || (Z.eqb r half && Z.odd q) then q + 1 else q in
  Z.sgn b * q' * 2 ^ sh.

Definition digit_char (d : Z) : ascii := ascii_of_nat (48 + Z.to_nat d).

Fixpoint digits_go (fuel : nat) (n : Z) (acc : string) : string :=
  match fuel with
  | O => acc
  | S f =>
      let acc' := String (digit_char (n mod 10)) acc in
      if Z.eqb (n / 10) 0 then acc' else digits_go f (n / 10) acc'
  end.

(** Decimal notation of a non-negative integer. *)
Definition string_of_nonneg (n : Z) : string :=
  digits_go (S (Z.to_nat (Z.log2 n))) n EmptyString.

(** [f"{x:.2f}"] for the exact value [x = num / den], [den > 0]: correctly
    rounded to two decimals, ties to even, a minus sign for any negative
    value (also when it rounds to zero). *)
Definition format_2f (num den : Z) : string :=
  let a := Z.abs num in
  let q := (a * 100) / den in
  let r := (a * 100) mod den in
  let q' := if Z.ltb den (2 * r) || (Z.eqb (2 * r) den && Z.odd q) then q + 1 else q in
  let frac := q' mod 100 in
  (if Z.ltb num 0 then "-" else "")
    ++ string_of_nonneg (q' / 100) ++ "."
    ++ String (digit_char (frac / 10)) (String (digit_char (frac mod 10)) "").

(** [f"{bytes_to_gb(b):.2f}"] *)
Definition gb_2f (bytes_size : Z) : string :=
  format_2f (round53 bytes_size) (1024 ^ 3).

(* ------------------------------------------------------------------ *)
(** ** Colours and printing *)

Definition ESC : string := String (ascii_of_nat 27) EmptyString.

Module Colors.
Definition RED := ESC ++ "[0;31m".
Definition GREEN := ESC ++ "[0;32m".
Definition YELLOW := ESC ++ "[1;33m".
Definition BLUE := ESC ++ "[0;34m".
Definition CYAN := ESC ++ "[0;36m".
Definition BOLD := ESC ++ "[1m".
Definition NC := ESC ++ "[0m".
End Colors.

(** Standard output is the list of chunks written by [print], in order.
    [print(x)] writes [x ++ "\n"], [print(x, end="\r")] writes [x ++ "\r"]. *)
Definition py_print (x : string) : string := x ++ nl.
Definition py_print_end (x e : string) : string := x ++ e.

(** [print_colored(text, color)] *)
Definition print_colored (text color : string) : string :=
  py_print (color ++ text ++ Colors.NC).

(* ------------------------------------------------------------------ *)
(** ** scan_system_data_locations *)

(** A collected location: [(path_str, description, size_bytes, requires_sudo)]. *)
Record Location := mkLocation {
  loc_path : string;
  loc_desc : string;
  loc_size : Z;
  loc_sudo : bool
}.

(** A catalog entry: [(path_str, description, requires_sudo)]. *)
Record CatalogEntry := mkEntry {
  cat_path : string;
  cat_desc : string;
  cat_sudo : bool
}.

(** One iteration of the scanning loop: appends to [locations] and writes
    to standard output; an exception escaping [get_directory_size]
    propagates out of the loop. *)
Definition scan_step (fs : FS) (e : CatalogEntry)
  (st : list Location * list string) : py_result (list Location * list string) :=
  let '(locations, out) := st in
  let path := cat_path e in
  let out := (out ++ [py_print_end ("Scanning: " ++ cat_desc e ++ "...") cr])%list in
  r <- get_directory_size fs path ;;
  let '(size_bytes, success) := r in
  if success && Z.ltb 0 size_bytes then
    py_ret ((locations ++ [mkLocation path (cat_desc e) size_bytes (cat_sudo e)])%list,
            (out ++ [print_colored ("Found: " ++ cat_desc e ++ " - " ++ gb_2f size_bytes ++ " GB")
                       Colors.GREEN])%list)
  else if negb success then
    (* [not success and path.exists()]: the call outside any [try] *)
    if fs_exists_err fs path then py_raise PermissionError
    else if fs_exists fs path then
    py_ret ((locations ++ [mkLocation path (cat_desc e) 0 (cat_sudo e)])%list,
            (out ++ [print_colored ("Found: " ++ cat_desc e ++ " - [Permission Denied - may require sudo]")
                       Colors.YELLOW])%list)
    else py_ret (locations, out)
  else py_ret (locations, out).

Fixpoint scan_loop (fs : FS) (catalog : list CatalogEntry)
  (st : list Location * list string) : py_result (list Location * list string) :=
  match catalog with
  | [] => py_ret st
  | e :: rest => st' <- scan_step fs e st ;; scan_loop fs rest st'
  end.

(** The body of [scan_system_data_locations] over a given catalog: returns
    the collected locations and what was printed. *)
Definition scan_locations (fs : FS) (catalog : list CatalogEntry)
  : py_result (list Location * list string) :=
  st <- scan_loop fs catalog
          ([], [print_colored "Scanning system locations... This may take a few minutes." Colors.BLUE;
                py_print ""]) ;;
  let '(locations, out) := st in
  py_ret (locations, (out ++ [py_print ""])%list).

(** [os.path.expanduser("~" ++ rest)] for a home directory [home]. *)
Definition rstrip_slash (s : string) : string :=
  string_of_list_ascii
    (rev (let fix go l := match l with
                          | "/"%char :: l' => go l'
                          | _ => l
                          end in go (rev (list_ascii_of_string s)))).

Definition expanduser (home rest : string) : string :=
  match rstrip_slash home ++ rest with
  | EmptyString => "/"
  | p => p
  end.

Definition system_locations (home : string) : list CatalogEntry :=
  [ mkEntry "/Library/Caches" "System Caches" true;
    mkEntry "/private/var/folders" "System Temporary Files" true;
    mkEntry "/private/var/vm" "Virtual Memory Swap Files" true;
    mkEntry "/private/var/db" "System Databases" true;
    mkEntry "/private/var/log" "System Logs" true;
    mkEntry "/System/Library/Caches" "System Library Caches" true;
    mkEntry "/.MobileBackups" "Time Machine Local Snapshots" true;
    mkEntry "/private/var/db/.MobileBackups" "Time Machine Local Snapshots (Alt)" true;
    mkEntry (expanduser home "/Library/Caches") "User Library Caches" false;
    mkEntry (expanduser home "/Library/Logs") "User Library Logs" false;
    mkEntry (expanduser home "/Library/Application Support") "User Application Support" false;
    mkEntry (expanduser home "/Library/Containers") "User App Containers" false;
    mkEntry (expanduser home "/Library/Developer") "Xcode & Developer Files" false;
    mkEntry (expanduser home "/Library/Containers/com.docker.docker") "Docker Data" false;
    mkEntry (expanduser home "/Library/VirtualBox") "VirtualBox VMs" false;
    mkEntry (expanduser home "/Library/Application Support/Parallels") "Parallels VMs" false;
    mkEntry "/private/var/containers" "System App Containers" true;
    mkEntry "/.Spotlight-V100" "Spotlight Index" true;
    mkEntry (expanduser home "/.Spotlight-V100") "User Spotlight Index" false;
    mkEntry (expanduser home "/Library/Mail") "Mail Data" false;
    mkEntry (expanduser home "/Library/Application Support/MobileSync/Backup") "iOS Device Backups" false;
    mkEntry "/opt/homebrew" "Homebrew (Apple Silicon)" true;
    mkEntry "/usr/local" "Homebrew (Intel)" true;
    mkEntry (expanduser home "/node_modules") "Node Modules (Home)" false;
    mkEntry (expanduser home "/.Trash") "Trash" false ].

Definition scan_system_data_locations (home : string) (fs : FS)
  : py_result (list Location * list string) :=
  scan_locations fs (system_locations home).

(* ------------------------------------------------------------------ *)
(** ** find_large_directories *)

(** The body of [find_large_directories] mutates its local list
    [large_dirs] and may raise; the [except ...: pass] then returns the
    list as it stands.  Its computations therefore run in a state and
    exception monad whose state is [large_dirs]. *)
Definition LargeDirs := list (string * Z).
Definition FM (A : Type) := LargeDirs -> LargeDirs * py_result A.

Definition fm_ret {A} (a : A) : FM A := fun st => (st, py_ret a).
Definition fm_bind {A B} (m : FM A) (k : A -> FM B) : FM B :=
  fun st => let '(st', r) := m st in
            match r with
            | inl e => (st', inl e)
            | inr a => k a st'
            end.
Definition fm_lift {A} (r : py_result A) : FM A := fun st => (st, r).
Definition fm_append (x : string * Z) : FM unit := fun st => ((st ++ [x])%list, py_ret tt).

Notation "x <-- m ;;; k" := (fm_bind m (fun x => k))
  (at level 61, m at next level, right associativity).

Definition find_argv (root : string) : list string :=
  ["find"; root; "-maxdepth"; "1"; "-type"; "d"; "-exec"; "du"; "-sk"; "{}"; ";"].

(** [size_gb >= min_size_gb] with [size_gb = bytes_to_gb(size_kb * 1024)];
    the threshold, a Python float, is given by its exact rational value. *)
Definition at_least_gb (size_bytes : Z) (min_size_gb : Q) : bool :=
  Qle_bool min_size_gb (inject_Z (round53 size_bytes) / inject_Z (1024 ^ 3)).

(** One line of the [find ... -exec du -sk {} ;] output. *)
Definition find_line_step (min_size_gb : Q) (line : string) : FM unit :=
  match line with
  | EmptyString => fm_ret tt
  | _ =>
      let parts := py_split_sep tab line in
      if Nat.eqb (List.length parts) 2 then
        size_kb <-- fm_lift (py_int_exc (nth 0 parts "")) ;;;
        let dir_path := nth 1 parts "" in
        if Z.ltb 0 size_kb then
          if at_least_gb (size_kb * 1024) min_size_gb
          then fm_append (dir_path, size_kb * 1024)
          else fm_ret tt
        else fm_ret tt
      else fm_ret tt
  end.

Fixpoint find_lines_loop (min_size_gb : Q) (lines : list string) : FM unit :=
  match lines with
  | [] => fm_ret tt
  | line :: rest => _ <-- find_line_step min_size_gb line ;;; find_lines_loop min_size_gb rest
  end.

(** The [try] block; a [return large_dirs] inside it is [fm_ret tt]. *)
Definition find_large_body (fs : FS) (root : string) (min_size_gb : Q) : FM unit :=
  if negb (fs_exists fs root) || negb (fs_is_dir fs root) then fm_ret tt else
  r <-- fm_lift (subprocess_run fs (find_argv root)) ;;;
  let '(returncode, stdout) := r in
  if Z.eqb returncode 0 then
    find_lines_loop min_size_gb (py_split_sep newline (py_strip stdout))
  else fm_ret tt.

(** [find_large_directories(root_path, min_size_gb)]: starts from
    [large_dirs = []], runs the [try] block, swallows the caught
    exceptions and returns [large_dirs]. *)
Definition find_large_directories (fs : FS) (root : string) (min_size_gb : Q)
  : py_result LargeDirs :=
  let '(large_dirs, r) := find_large_body fs root min_size_gb [] in
  match r with
  | inr _ => py_ret large_dirs
  | inl e => if probe_caught e then py_ret large_dirs else py_raise e
  end.

(* ------------------------------------------------------------------ *)
(** ** print_results_table *)

(** [locations.sort(key=lambda x: x[2], reverse=True)].  Python's sort is
    stable and [reverse=True] keeps equal keys in their original order;
    the result is the one of this insertion sort, which puts each element
    before the first later-sorted element whose key is not larger. *)
Fixpoint insert_desc (x : Location) (l : list Location) : list Location :=
  match l with
  | [] => [x]
  | y :: l' => if Z.leb (loc_size y) (loc_size x) then x :: y :: l'
               else y :: insert_desc x l'
  end.

Fixpoint sort_by_size_desc (l : list Location) : list Location :=
  match l with
  | [] => []
  | x :: l' => insert_desc x (sort_by_size_desc l')
  end.

Definition list_max_nat (l : list nat) : nat := fold_left Nat.max l 0%nat.

Definition path_width (locations : list Location) : nat :=
  Nat.max 60 (Nat.min (list_max_nat (map (fun r => length (loc_path r)) locations) + 2) 80).

Definition desc_width (locations : list Location) : nat :=
  Nat.max 35 (Nat.min (list_max_nat (map (fun r => length (loc_desc r)) locations) + 2) 50).

Definition size_width : nat := 15.
Definition perm_width : nat := 12.

(** [display_path = path if len(path) <= path_width - 2
                    else "..." + path[-(path_width-5):]] *)
Definition display_path (pw : nat) (path : string) : string :=
  if Nat.leb (length path) (pw - 2) then path else "..." ++ py_suffix path (pw - 5).

Definition perm_text (r : Location) : string :=
  if loc_sudo r && Z.eqb (loc_size r) 0 then "sudo needed" else "user access".

Definition render_row (pw dw : nat) (r : Location) : string :=
  pad_right pw (display_path pw (loc_path r)) ++ " " ++ pad_right dw (loc_desc r) ++ " "
    ++ pad_left 10 (gb_2f (loc_size r)) ++ " GB " ++ pad_right perm_width (perm_text r).

(** The [for] loop: accumulates [total_size] and prints one row per record. *)
Fixpoint rows_loop (pw dw : nat) (l : list Location) (total_size : Z) : Z * list string :=
  match l with
  | [] => (total_size, [])
  | r :: l' =>
      let '(t, out) := rows_loop pw dw l' (total_size + loc_size r) in
      (t, py_print (render_row pw dw r) :: out)
  end.

Definition table_header (locations : list Location) : list string :=
  let pw := path_width locations in
  let dw := desc_width locations in
  [print_colored (pad_right pw "Path" ++ " " ++ pad_right dw "Description" ++ " "
                   ++ pad_right size_width "Size" ++ " " ++ pad_right perm_width "Permission")
                 (Colors.BOLD ++ Colors.CYAN);
   print_colored (repeat_string (pw + dw + size_width + perm_width) "=") Colors.CYAN].

Definition total_line (total_size : Z) : string :=
  print_colored ("Total Scanned: " ++ gb_2f total_size ++ " GB") (Colors.BOLD ++ Colors.GREEN).

(** Output of the table for an already sorted list. *)
Definition table_output (locations : list Location) : list string :=
  let '(total_size, rows) :=
    rows_loop (path_width locations) (desc_width locations) locations 0 in
  (table_header locations ++ rows ++ [py_print ""; total_line total_size; py_print ""])%list.

(** Python list objects, by identity: the caller's [locations] is a
    reference into this store, and [list.sort] updates it in place. *)
Definition heap := nat -> list Location.

Definition heap_upd (h : heap) (r : nat) (l : list Location) : heap :=
  fun r' => if Nat.eqb r' r then l else h r'.

(** [print_results_table(locations)]: the store after the call and what it
    printed. *)
Definition print_results_table (h : heap) (locations : nat) : heap * list string :=
  match h locations with
  | [] => (h, [print_colored "No large directories found." Colors.YELLOW])
  | l =>
      let h' := heap_upd h locations (sort_by_size_desc l) in
      (h', table_output (h' locations))
  end.

(* ------------------------------------------------------------------ *)
(** ** main: the scanned locations rendered by the table *)

(** [locations = scan_system_data_locations(); print_results_table(locations)]
    over a catalog: the report's output, the caller's list being the object
    with identity [0]. *)
Definition report (fs : FS) (catalog : list CatalogEntry) : py_result (list string) :=
  st <- scan_locations fs catalog ;;
  let '(locations, out) := st in
  py_ret (out ++ snd (print_results_table (fun _ => locations) 0%nat))%list.

(* ------------------------------------------------------------------ *)
(** ** main and the script's entry point *)

(** [main] writes to standard output as it goes and may stop early, by an
    exception or by [sys.exit]; what it printed before stopping stays
    printed.  Its computations run in a state and exception monad whose
    state is the standard output written so far. *)
Inductive stop :=
| Raise (e : py_exc)     (* an exception propagating out of main *)
| SysExit (code : Z).    (* sys.exit(code): SystemExit *)

Definition IO (A : Type) := list string -> list string * (stop + A).

Definition io_ret {A} (a : A) : IO A := fun out => (out, inr a).
Definition io_bind {A B} (m : IO A) (k : A -> IO B) : IO B :=
  fun out => let '(out', r) := m out in
             match r with
             | inl s => (out', inl s)
             | inr a => k a out'
             end.
Definition io_print (chunk : string) : IO unit := fun out => ((out ++ [chunk])%list, inr tt).
Definition io_raise {A} (e : py_exc) : IO A := fun out => (out, inl (Raise e)).
Definition io_exit {A} (code : Z) : IO A := fun out => (out, inl (SysExit code)).
Definition io_lift {A} (r : py_result A) : IO A :=
  fun out => (out, match r with inl e => inl (Raise e) | inr a => inr a end).

Notation "x <~ m ;; k" := (io_bind m (fun x => k))
  (at level 61, m at next level, right associativity).

(** [for x in l: f(x)] *)
Fixpoint io_iter {A} (f : A -> IO unit) (l : list A) : IO unit :=
  match l with
  | [] => io_ret tt
  | x :: l' => _ <~ f x ;; io_iter f l'
  end.

(** [scan_system_data_locations] with its output written as it goes, so
    that an exception raised by a probe leaves the lines printed before it. *)
Definition scan_step_io (fs : FS) (locations : list Location) (e : CatalogEntry)
  : IO (list Location) :=
  let path := cat_path e in
  _ <~ io_print (py_print_end ("Scanning: " ++ cat_desc e ++ "...") cr) ;;
  r <~ io_lift (get_directory_size fs path) ;;
  let '(size_bytes, success) := r in
  if success && Z.ltb 0 size_bytes then
    _ <~ io_print (print_colored ("Found: " ++ cat_desc e ++ " - " ++ gb_2f size_bytes ++ " GB")
                     Colors.GREEN) ;;
    io_ret (locations ++ [mkLocation path (cat_desc e) size_bytes (cat_sudo e)])%list
  else if negb success then
    if fs_exists_err fs path then io_raise PermissionError
    else if fs_exists fs path then
    _ <~ io_print (print_colored ("Found: " ++ cat_desc e ++ " - [Permission Denied - may require sudo]")
                     Colors.YELLOW) ;;
    io_ret (locations ++ [mkLocation path (cat_desc e) 0 (cat_sudo e)])%list
    else io_ret locations
  else io_ret locations.

Fixpoint scan_loop_io (fs : FS) (catalog : list CatalogEntry) (locations : list Location)
  : IO (list Location) :=
  match catalog with
  | [] => io_ret locations
  | e :: rest => locations' <~ scan_step_io fs locations e ;; scan_loop_io fs rest locations'
  end.

Definition scan_locations_io (fs : FS) (catalog : list CatalogEntry) : IO (list Location) :=
  _ <~ io_print (print_colored "Scanning system locations... This may take a few minutes." Colors.BLUE) ;;
  _ <~ io_print (py_print "") ;;
  locations <~ scan_loop_io fs catalog [] ;;
  _ <~ io_print (py_print "") ;;
  io_ret locations.

Definition scan_system_data_locations_io (home : string) (fs : FS) : IO (list Location) :=
  scan_locations_io fs (system_locations home).

(** [large_dirs.sort(key=lambda x: x[1], reverse=True)]: stable, equal
    keys in their original order, as for the table's sort. *)
Fixpoint insert_key_desc {A} (key : A -> Z) (x : A) (l : list A) : list A :=
  match l with
  | [] => [x]
  | y :: l' => if Z.leb (key y) (key x) then x :: y :: l' else y :: insert_key_desc key x l'
  end.

Fixpoint sort_key_desc {A} (key : A -> Z) (l : list A) : list A :=
  match l with
  | [] => []
  | x :: l' => insert_key_desc key x (sort_key_desc key l')
  end.

(** [(Path(os.path.expanduser("~/Library")), ...), (Path("/Library"), ...),
    (Path("/private/var"), ...)]; these paths are already in the normal
    form [Path] gives them. *)
Definition key_locations (home : string) : list (string * string) :=
  [(expanduser home "/Library", "User Library subdirectories");
   ("/Library", "System Library subdirectories");
   ("/private/var", "System var subdirectories")].

(** [print(f"  {dir_path}: {size_gb:.2f} GB")] *)
Definition dir_line (d : string * Z) : string :=
  py_print ("  " ++ fst d ++ ": " ++ gb_2f (snd d) ++ " GB").

(** One iteration of the loop over [key_locations]; the threshold [0.5] is
    exactly [1/2].  [root_path.exists()] is outside any [try] here, so a
    PermissionError it raises leaves the loop. *)
Definition key_location_step (fs : FS) (kl : string * string) : IO unit :=
  let '(root_path, desc) := kl in
  if fs_exists_err fs root_path then io_raise PermissionError else
  if fs_exists fs root_path then
    _ <~ io_print (print_colored ("Scanning " ++ desc ++ "...") Colors.CYAN) ;;
    large_dirs <~ io_lift (find_large_directories fs root_path (1 # 2)%Q) ;;
    match large_dirs with
    | [] => io_ret tt
    | _ =>
        let large_dirs := sort_key_desc snd large_dirs in
        _ <~ io_print (print_colored ("Large directories in " ++ desc ++ ":") Colors.YELLOW) ;;
        _ <~ io_iter (fun d => io_print (dir_line d)) (firstn 10 large_dirs) ;;
        io_print (py_print "")
    end
  else io_ret tt.

(** The OSError a failed spawn raises: FileNotFoundError (no such
    executable), PermissionError, or another subclass. *)
Inductive spawn_error := SpawnNotFound | SpawnPermission | SpawnOther.

Definition tmutil_argv : list string := ["tmutil"; "listlocalsnapshots"; "/"].

(** The byte string of a list of byte values. *)
Fixpoint string_of_bytes (l : list nat) : string :=
  match l with
  | [] => EmptyString
  | b :: l' => String (ascii_of_nat b) (string_of_bytes l')
  end.

(** The non-ASCII prefixes of three messages, as the UTF-8 bytes written to
    standard output (those of the source text). *)
Definition WARN_SIGN : string := string_of_bytes [195; 162; 197; 161; 194; 160; 195; 175; 194; 184]%nat.
Definition TIP_SIGN : string := string_of_bytes [195; 176; 197; 184; 226; 128; 153; 194; 161]%nat.

(** [[line for line in stdout.strip().split('\n')
      if line.startswith('com.apple.TimeMachine')]] *)
Definition snapshot_lines (stdout : string) : list string :=
  filter (fun line => String.prefix "com.apple.TimeMachine" line)
         (py_split_sep newline (py_strip stdout)).

Definition snapshot_found_line (n : nat) : string :=
  print_colored (WARN_SIGN ++ "  Found " ++ string_of_nonneg (Z.of_nat n)
                   ++ " Time Machine local snapshots!") Colors.YELLOW.

(** The Time Machine check: [try: ... except (subprocess.TimeoutExpired,
    FileNotFoundError, PermissionError): pass]; [spawn argv] tells which
    OSError a failed spawn of [argv] raises. *)
Definition check_snapshots (fs : FS) (spawn : list string -> spawn_error) : IO unit :=
  _ <~ io_print (print_colored "Checking for Time Machine local snapshots..." Colors.BLUE) ;;
  match fs_run fs tmutil_argv with
  | RunDone returncode stdout =>
      if Z.eqb returncode 0 && negb (String.eqb (py_strip stdout) "") then
        let snapshots := snapshot_lines stdout in
        match snapshots with
        | [] => io_ret tt
        | _ =>
            _ <~ io_print (snapshot_found_line (List.length snapshots)) ;;
            _ <~ io_print (print_colored "   These can take up significant space. To delete them:" Colors.YELLOW) ;;
            _ <~ io_print (print_colored "   sudo tmutil deletelocalsnapshots <snapshot-date>" Colors.CYAN) ;;
            _ <~ io_print (print_colored "   Or delete all: sudo tmutil deletelocalsnapshots /" Colors.CYAN) ;;
            io_print (py_print "")
        end
      else io_ret tt
  | RunTimeout => io_ret tt
  | RunOSError =>
      match spawn tmutil_argv with
      | SpawnOther => io_raise OSError
      | SpawnNotFound | SpawnPermission => io_ret tt
      end
  end.

Definition banner : string := print_colored (repeat_string 100 "=") Colors.BLUE.

Definition not_macos_warning : string :=
  print_colored (WARN_SIGN ++ "  WARNING: This script is designed for macOS only!") Colors.YELLOW.

(** [main()] on the platform [platform] ([sys.platform]), for the home
    directory [home]. *)
Definition main (platform home : string) (fs : FS) (spawn : list string -> spawn_error) : IO unit :=
  _ <~ io_print banner ;;
  _ <~ io_print (print_colored "        SYSTEM DATA LOCATION FINDER FOR macOS" (Colors.BOLD ++ Colors.BLUE)) ;;
  _ <~ io_print banner ;;
  _ <~ io_print (py_print "") ;;
  _ <~ (if negb (String.eqb platform "darwin") then
          _ <~ io_print not_macos_warning ;;
          io_exit 1
        else io_ret tt) ;;
  locations <~ scan_system_data_locations_io home fs ;;
  _ <~ io_print banner ;;
  _ <~ io_print (print_colored "RESULTS:" (Colors.BOLD ++ Colors.YELLOW)) ;;
  _ <~ io_print (py_print "") ;;
  _ <~ io_iter io_print (snd (print_results_table (fun _ => locations) 0%nat)) ;;
  _ <~ io_print (print_colored "Scanning for large subdirectories in key locations..." Colors.BLUE) ;;
  _ <~ io_print (py_print "") ;;
  _ <~ io_iter (key_location_step fs) (key_locations home) ;;
  _ <~ check_snapshots fs spawn ;;
  _ <~ io_print banner ;;
  _ <~ io_print (print_colored (TIP_SIGN ++ " TIP: Some locations may require sudo to access. Use 'sudo du -sh <path>' to check.") Colors.CYAN) ;;
  _ <~ io_print (print_colored (TIP_SIGN ++ " TIP: To check specific directory: du -sh <path>") Colors.CYAN) ;;
  io_print (py_print "").

(** [if __name__ == "__main__": try: main() except KeyboardInterrupt: ...
    except Exception as e: ...]: standard output and exit status.
    SystemExit is no Exception and ends the process with its code; an
    exception is reported and gives status 1 ([exc_str e] is [str(e)]; the
    traceback goes to standard error).  KeyboardInterrupt, raised by Ctrl+C
    from outside, is not modelled. *)
Definition program (exc_str : py_exc -> string) (platform home : string) (fs : FS)
  (spawn : list string -> spawn_error) : list string * Z :=
  let '(out, r) := main platform home fs spawn [] in
  match r with
  | inr _ => (out, 0)
  | inl (SysExit code) => (out, code)
  | inl (Raise e) =>
      ((out ++ [print_colored (nl ++ "Unexpected error: " ++ exc_str e) Colors.RED])%list, 1)
  end.

(* ------------------------------------------------------------------ *)
(** ** Concrete environments and auxiliary notions for the properties *)

Definition size_ge (a b : Location) : Prop := loc_size b <= loc_size a.

Definition sum_sizes (l : list Location) : Z :=
  fold_right (fun r acc => loc_size r + acc) 0 l.

Definition same_size (k : Z) (x : Location) : bool := Z.eqb (loc_size x) k.

(** A filesystem holding the directories [present] (which exist and are
    directories) and running external commands with [run]. *)
Definition fs_of (present : list string) (run : list string -> run_outcome) : FS :=
  {| fs_exists := fun p => existsb (String.eqb p) present;
     fs_is_dir := fun p => existsb (String.eqb p) present;
     fs_run := run;
     fs_exists_err := fun _ => false;
     fs_exists_err_spec := fun p (H : false = true) => match diff_false_true H with end |}.

(** [du -sk p] answering from a table of outputs, failing elsewhere. *)
Definition du_table (table : list (string * string)) (argv : list string) : run_outcome :=
  match argv with
  | [_; _; p] =>
      match find (fun e => String.eqb p (fst e)) table with
      | Some e => RunDone 0 (snd e)
      | None => RunDone 1 ""
      end
  | _ => RunOSError
  end.

Definition loc_a : Location := mkLocation "/tmp/a" "A" (2 * 1024 ^ 3) false.
Definition loc_b : Location := mkLocation "/tmp/b" "B" (5 * 1024 ^ 3) false.

Definition fs_ab : FS :=
  fs_of ["/tmp/a"; "/tmp/b"]
        (du_table [("/tmp/a", "2097152" ++ String tab "/tmp/a" ++ nl);
                   ("/tmp/b", "5242880" ++ String tab "/tmp/b" ++ nl)]).

Definition catalog_ab : list CatalogEntry :=
  [mkEntry "/tmp/a" "A" false; mkEntry "/tmp/b" "B" false].

Definition path79 : string := repeat_string 79 "a".

Definition fs_empty_du : FS := fs_of ["/tmp/e"] (fun _ => RunDone 0 "").

Definition fs_zero_du : FS :=
  fs_of ["/tmp/e"] (du_table [("/tmp/e", "0" ++ String tab "/tmp/e" ++ nl)]).

(** A catalog entry yields a record when its probe succeeded with a
    positive size, or failed on a path that exists. *)
Definition yields_record (fs : FS) (e : CatalogEntry) : bool :=
  match get_directory_size fs (cat_path e) with
  | inr (s, true) => Z.ltb 0 s
  | inr (_, false) => fs_exists fs (cat_path e)
  | inl _ => false
  end.

(** [du -sk p] prints the kilobyte count, a tab and the path. *)
Definition du_line (entry : string * Z) : string :=
  string_of_nonneg (snd entry) ++ String tab (fst entry).

(** Standard output of [find root -maxdepth 1 -type d -exec du -sk {} ;]:
    one [du] line, newline-terminated, per directory found, in the order
    find visits them.  These are the bytes [du] writes; they are also the
    text [text=True] decodes from them when every path is ASCII without a
    carriage return (universal newlines turn a carriage return into a
    newline), as [path_ok] requires. *)
Definition find_du_stdout (entries : list (string * Z)) : string :=
  String.concat nl (map du_line entries) ++ nl.

Definition no_char (c : ascii) (s : string) : bool :=
  forallb (fun x => negb (Ascii.eqb x c)) (list_ascii_of_string s).

Definition carriage : ascii := ascii_of_nat 13.

Definition is_ascii_string (s : string) : bool :=
  forallb (fun x => Nat.ltb (nat_of_ascii x) 128) (list_ascii_of_string s).

(** A path that survives decoding and the line-based parsing: ASCII, no
    tab, no newline, no carriage return, and not ending with whitespace
    (the whole output is [strip()]ped). *)
Definition path_ok (p : string) : bool :=
  is_ascii_string p && no_char tab p && no_char newline p && no_char carriage p &&
  match rev (list_ascii_of_string p) with
  | c :: _ => negb (py_isspace c)
  | [] => false
  end.

Definition is_digit_char (c : ascii) : Prop := exists d, 0 <= d < 10 /\ c = digit_char d.

Definition digit_val (c : ascii) : Z :=
  match digit_value c with Some d => d | None => 0 end.

Definition digits_value (l : list ascii) (acc : Z) : Z :=
  fold_left (fun a c => a * 10 + digit_val c) l acc.

(** The entries a successful batched invocation keeps. *)
Definition kept_entries (min_size_gb : Q) (es : list (string * Z)) : LargeDirs :=
  map (fun e => (fst e, snd e * 1024))
      (filter (fun e => Z.ltb 0 (snd e) && at_least_gb (snd e * 1024) min_size_gb) es).

(** A filesystem whose only directory is [root], on which the batched
    invocation gives [outcome]. *)
Definition fs_find (root : string) (outcome : run_outcome) : FS :=
  fs_of [root] (fun argv => if list_eq_dec string_dec argv (find_argv root)
                            then outcome else RunOSError).

(** "/r" measures 2 GB and holds the immediate subdirectory "/r/a" of 1 GB. *)
Definition fs_r_large : FS :=
  fs_find "/r" (RunDone 0 (find_du_stdout [("/r", 2097152); ("/r/a", 1048576)])).

(** "/r" and its immediate subdirectory "/r/e" are empty (0 KB). *)
Definition fs_r_empty : FS :=
  fs_find "/r" (RunDone 0 (find_du_stdout [("/r", 0); ("/r/e", 0)])).

(** "/r" holds a 1 GB directory whose name contains a newline and a tab. *)
Definition odd_dir : string := "/r/a" ++ nl ++ "b" ++ String tab "c".

Definition fs_r_odd : FS :=
  fs_find "/r" (RunDone 0 (find_du_stdout [("/r", 2097152); (odd_dir, 1048576)])).

(** [du] ran on an existing path, exited with status 0 and printed no
    whitespace-separated field. *)
Definition du_blank (fs : FS) (p : string) : Prop :=
  fs_exists fs p = true /\ exists out, fs_run fs (du_argv p) = RunDone 0 out /\ py_split_ws out = [].

(** The exception [e] the scan raises at the catalog entry [en]. *)
Definition scan_entry_exc (fs : FS) (en : CatalogEntry) (e : py_exc) : Prop :=
  (e = IndexError /\ du_blank fs (cat_path en)) \/
  (e = PermissionError /\ fs_exists_err fs (cat_path en) = true).

(** The record [r] the scan collects for the catalog entry [e]. *)
Definition record_of (fs : FS) (e : CatalogEntry) (r : Location) : Prop :=
  loc_path r = cat_path e /\ loc_desc r = cat_desc e /\ loc_sudo r = cat_sudo e /\
  ((0 < loc_size r /\ get_directory_size fs (cat_path e) = inr (loc_size r, true)) \/
   (loc_size r = 0 /\ get_directory_size fs (cat_path e) = inr (0, false) /\
    fs_exists fs (cat_path e) = true)).

(** An entry [find_large_directories] may return for the threshold [m]. *)
Definition dir_entry_ok (m : Q) (d : string * Z) : Prop :=
  0 < snd d /\ snd d mod 1024 = 0 /\ at_least_gb (snd d) m = true.

(** The Time Machine check raises: tmutil could not be started, with an
    OSError other than FileNotFoundError and PermissionError. *)
Definition tmutil_spawn_other (fs : FS) (spawn : list string -> spawn_error) : Prop :=
  fs_run fs tmutil_argv = RunOSError /\ spawn tmutil_argv = SpawnOther.

(** The filter a threshold [m] applies to a returned entry. *)
Definition keep_gb (m : Q) (d : string * Z) : bool := at_least_gb (snd d) m.

(* ================================================================== *)
(** * Properties *)

(** ** The sort *)

Lemma insert_desc_perm x l : Permutation (x :: l) (insert_desc x l).
Proof.
  induction l as [|y l IH]; simpl; [reflexivity|].
  destruct (Z.leb (loc_size y) (loc_size x)); [reflexivity|].
  rewrite perm_swap. now constructor.
Qed.

Lemma sort_by_size_desc_perm l : Permutation l (sort_by_size_desc l).
Proof.
  induction l as [|x l IH]; simpl; [reflexivity|].
  rewrite <- insert_desc_perm. now constructor.
Qed.

Lemma insert_desc_hdrel a x l :
  HdRel size_ge a l -> size_ge a x -> HdRel size_ge a (insert_desc x l).
Proof.
  destruct l as [|y l]; simpl; intros Hh Hax; [now constructor|].
  destruct (Z.leb (loc_size y) (loc_size x)); constructor; auto.
  now inversion Hh.
Qed.

Lemma insert_desc_sorted x l : Sorted size_ge l -> Sorted size_ge (insert_desc x l).
Proof.
  induction l as [|y l IH]; simpl; intros Hs; [now repeat constructor|].
  destruct (Z.leb (loc_size y) (loc_size x)) eqn:E.
  - apply Z.leb_le in E. constructor; [exact Hs|]. constructor. exact E.
  - apply Z.leb_gt in E. inversion Hs; subst.
    constructor; [now apply IH|].
    apply insert_desc_hdrel; [assumption|]. unfold size_ge. lia.
Qed.

Lemma sort_by_size_desc_sorted l : StronglySorted size_ge (sort_by_size_desc l).
Proof.
  apply Sorted_StronglySorted.
  - intros a b c; unfold size_ge; lia.
  - induction l; simpl; [constructor|]. now apply insert_desc_sorted.
Qed.

Lemma insert_desc_filter k x l :
  filter (same_size k) (insert_desc x l) =
  if same_size k x then x :: filter (same_size k) l else filter (same_size k) l.
Proof.
  induction l as [|y l IH]; simpl; [reflexivity|].
  destruct (Z.leb (loc_size y) (loc_size x)) eqn:E; simpl; [reflexivity|].
  apply Z.leb_gt in E. rewrite IH. unfold same_size.
  destruct (Z.eqb_spec (loc_size y) k), (Z.eqb_spec (loc_size x) k);
    simpl; try reflexivity; lia.
Qed.

Lemma sort_by_size_desc_stable k l :
  filter (same_size k) (sort_by_size_desc l) = filter (same_size k) l.
Proof.
  induction l as [|x l IH]; simpl; [reflexivity|].
  rewrite insert_desc_filter, IH. reflexivity.
Qed.

Lemma sum_sizes_perm l l' : Permutation l l' -> sum_sizes l = sum_sizes l'.
Proof.
  induction 1; simpl; lia.
Qed.

(** ** The table *)

Lemma rows_loop_spec pw dw l t :
  rows_loop pw dw l t = (t + sum_sizes l, map (fun r => py_print (render_row pw dw r)) l).
Proof.
  revert t; induction l as [|r l IH]; intros t; simpl; [f_equal; lia|].
  rewrite IH. f_equal. lia.
Qed.

Lemma table_output_spec s :
  table_output s =
  (table_header s
   ++ map (fun r => py_print (render_row (path_width s) (desc_width s) r)) s
   ++ [py_print ""; total_line (sum_sizes s); py_print ""])%list.
Proof.
  unfold table_output. rewrite rows_loop_spec. reflexivity.
Qed.

Lemma print_results_table_nonempty h r l :
  h r = l -> l <> [] ->
  print_results_table h r =
  (heap_upd h r (sort_by_size_desc l), table_output (sort_by_size_desc l)).
Proof.
  intros Hr Hne. unfold print_results_table. rewrite Hr.
  destruct l as [|x l]; [contradiction|].
  unfold heap_upd at 2. rewrite Nat.eqb_refl. reflexivity.
Qed.

(** ** Strings *)

Lemma string_app_assoc (a b c : string) : (a ++ b) ++ c = a ++ (b ++ c).
Proof. induction a; simpl; congruence. Qed.

Lemma string_length_app (a b : string) : length (a ++ b) = (length a + length b)%nat.
Proof. induction a; simpl; congruence. Qed.

Lemma string_length_spaces n : length (spaces n) = n.
Proof. induction n; simpl; congruence. Qed.

Lemma substring_0_length s : substring 0 (length s) s = s.
Proof. induction s; simpl; congruence. Qed.

Lemma substring_length n m s :
  (n + m <= length s)%nat -> length (substring n m s) = m.
Proof.
  revert n m; induction s as [|c s IH]; intros n m H; simpl in *.
  - assert (n = 0 /\ m = 0)%nat as [-> ->] by lia. reflexivity.
  - destruct n as [|n].
    + destruct m as [|m]; simpl; [reflexivity|]. f_equal. apply IH. lia.
    + apply IH. lia.
Qed.

Lemma substring_split n s :
  (n <= length s)%nat -> s = substring 0 n s ++ substring n (length s - n) s.
Proof.
  revert n; induction s as [|c s IH]; intros n H; simpl in *.
  - destruct n; reflexivity.
  - destruct n as [|n]; simpl.
    + now rewrite substring_0_length.
    + f_equal. apply IH. lia.
Qed.

Lemma path_width_bounds locs : (60 <= path_width locs <= 80)%nat.
Proof. unfold path_width. lia. Qed.

(** ** Claims about the table *)

(** C2 (corrected): the path column is [path_width] wide, between 60 and
    80; a path of at most [path_width - 2] characters is shown unmodified,
    a longer one as "..." followed by its last [path_width - 5] characters,
    [path_width - 2] characters in all; the padded cell is [path_width]
    wide. *)
Theorem display_path_truncation (locs : list Location) (p : string) :
  let pw := path_width locs in
  (60 <= pw <= 80)%nat /\
  ((length p <= pw - 2)%nat -> display_path pw p = p) /\
  ((pw - 2 < length p)%nat ->
     exists pre tail, p = pre ++ tail /\ length tail = (pw - 5)%nat /\
       display_path pw p = "..." ++ tail /\
       length (display_path pw p) = (pw - 2)%nat) /\
  length (pad_right pw (display_path pw p)) = pw.
Proof.
  cbv zeta. pose proof (path_width_bounds locs) as Hb.
  set (pw := path_width locs) in *.
  assert (Hlong : (pw - 2 < length p)%nat ->
     exists pre tail, p = pre ++ tail /\ length tail = (pw - 5)%nat /\
       display_path pw p = "..." ++ tail /\
       length (display_path pw p) = (pw - 2)%nat).
  { intros Hl.
    assert (Hd : display_path pw p = "..." ++ py_suffix p (pw - 5)).
    { unfold display_path. destruct (Nat.leb_spec (length p) (pw - 2)); [lia|reflexivity]. }
    unfold py_suffix in Hd.
    destruct (Nat.leb_spec (pw - 5) (length p)) as [Hk|Hk]; [|lia].
    exists (substring 0 (length p - (pw - 5)) p),
           (substring (length p - (pw - 5)) (pw - 5) p).
    assert (Htl : length (substring (length p - (pw - 5)) (pw - 5) p) = (pw - 5)%nat)
      by (apply substring_length; lia).
    split; [|split; [exact Htl|split; [exact Hd|]]].
    - pose proof (substring_split (length p - (pw - 5)) p) as Hs.
      replace (length p - (length p - (pw - 5)))%nat with (pw - 5)%nat in Hs by lia.
      apply Hs. lia.
    - rewrite Hd. simpl. rewrite Htl. lia. }
  split; [exact Hb|]. split; [|split; [exact Hlong|]].
  - intros Hl. unfold display_path.
    destruct (Nat.leb_spec (length p) (pw - 2)); [reflexivity|lia].
  - unfold pad_right. rewrite string_length_app, string_length_spaces.
    destruct (Nat.leb_spec (length p) (pw - 2)) as [Hl|Hl].
    + unfold display_path. destruct (Nat.leb_spec (length p) (pw - 2)); lia.
    + destruct (Hlong Hl) as (pre & tail & _ & _ & _ & ->). lia.
Qed.

(** C2 counterexample: a single record whose path has 79 characters gets an
    80-column path column; the path is not longer than the column, yet it
    is shown truncated, and the truncated text has 78 characters, not 80. *)
Lemma display_path_truncation_counterexample :
  let locs := [mkLocation path79 "d" 1 false] in
  path_width locs = 80%nat /\ length path79 = 79%nat /\
  display_path (path_width locs) path79 <> path79 /\
  length (display_path (path_width locs) path79) = 78%nat.
Proof.
  vm_compute. split; [reflexivity|split; [reflexivity|split; [discriminate|reflexivity]]].
Qed.

(** C3: the table prints one row per record of the sorted list [s]: [s] is
    a permutation of the input, sorted by size descending (any row before
    another has a size at least as large), and records of equal size keep
    their input order. *)
Theorem print_results_table_sorted_stable (h : heap) (r : nat) (l : list Location) :
  h r = l -> l <> [] ->
  exists s,
    snd (print_results_table h r) =
      (table_header s
       ++ map (fun x => py_print (render_row (path_width s) (desc_width s) x)) s
       ++ [py_print ""; total_line (sum_sizes s); py_print ""])%list /\
    Permutation l s /\
    StronglySorted size_ge s /\
    (forall k, filter (same_size k) s = filter (same_size k) l).
Proof.
  intros Hr Hne. exists (sort_by_size_desc l).
  rewrite (print_results_table_nonempty h r l Hr Hne). simpl.
  split; [apply table_output_spec|].
  split; [apply sort_by_size_desc_perm|].
  split; [apply sort_by_size_desc_sorted|].
  intros k. apply sort_by_size_desc_stable.
Qed.

Lemma print_results_table_sorted_stable_witness :
  (fun _ : nat => [loc_a; loc_b]) 0%nat = [loc_a; loc_b] /\ [loc_a; loc_b] <> [] /\
  exists s,
    snd (print_results_table (fun _ => [loc_a; loc_b]) 0%nat) =
      (table_header s
       ++ map (fun x => py_print (render_row (path_width s) (desc_width s) x)) s
       ++ [py_print ""; total_line (sum_sizes s); py_print ""])%list /\
    Permutation [loc_a; loc_b] s /\
    StronglySorted size_ge s /\
    (forall k, filter (same_size k) s = filter (same_size k) [loc_a; loc_b]).
Proof.
  split; [reflexivity|]. split; [discriminate|].
  apply (print_results_table_sorted_stable (fun _ => [loc_a; loc_b]) 0%nat);
    [reflexivity|discriminate].
Defined.

(** C8: every printed row ends with the permission cell, which reads
    "sudo needed" exactly when the record requires elevated access and its
    size is 0, and "user access" otherwise; every record of a non-empty
    list is printed as such a row. *)
Theorem perm_text_flag :
  (forall pw dw x, exists pre,
     render_row pw dw x =
       pre ++ (if loc_sudo x && Z.eqb (loc_size x) 0 then "sudo needed " else "user access ")) /\
  (forall h r l x, h r = l -> In x l ->
     let s := sort_by_size_desc l in
     In (py_print (render_row (path_width s) (desc_width s) x)) (snd (print_results_table h r))).
Proof.
  split.
  - intros pw dw x.
    exists (pad_right pw (display_path pw (loc_path x)) ++ " " ++ pad_right dw (loc_desc x)
            ++ " " ++ pad_left 10 (gb_2f (loc_size x)) ++ " GB ").
    unfold render_row. rewrite !string_app_assoc. unfold perm_text.
    destruct (loc_sudo x && Z.eqb (loc_size x) 0); reflexivity.
  - intros h r l x Hr Hin. cbv zeta.
    assert (Hne : l <> []) by (intros ->; contradiction).
    rewrite (print_results_table_nonempty h r l Hr Hne), table_output_spec. cbn [snd].
    apply in_or_app. right. apply in_or_app. left.
    apply (in_map (fun r0 => py_print (render_row (path_width (sort_by_size_desc l))
                                 (desc_width (sort_by_size_desc l)) r0))).
    eapply Permutation_in; [apply sort_by_size_desc_perm|exact Hin].
Qed.

(** C9: after the rows, the table prints the total of the sizes of all the
    records, in GB with two decimals; for records of 2 GB ("/tmp/a", "A")
    and 5 GB ("/tmp/b", "B") the scan collects both, the rows come out B
    then A, and the total reads "7.00 GB". *)
Theorem print_results_table_total :
  (forall h r l, h r = l -> l <> [] ->
     exists pre, snd (print_results_table h r) =
       (pre ++ [py_print "";
                print_colored ("Total Scanned: " ++ gb_2f (sum_sizes l) ++ " GB")
                              (Colors.BOLD ++ Colors.GREEN);
                py_print ""])%list) /\
  (exists out,
     scan_locations fs_ab catalog_ab = inr ([loc_a; loc_b], out) /\
     snd (print_results_table (fun _ => [loc_a; loc_b]) 0%nat) = table_output [loc_b; loc_a] /\
     gb_2f (sum_sizes [loc_a; loc_b]) = "7.00").
Proof.
  split.
  - intros h r l Hr Hne.
    rewrite (print_results_table_nonempty h r l Hr Hne), table_output_spec. cbn [snd].
    eexists. rewrite <- app_assoc. f_equal.
    unfold total_line. rewrite (sum_sizes_perm _ _ (sort_by_size_desc_perm l)).
    reflexivity.
  - eexists. split; [vm_compute; reflexivity|]. split; vm_compute; reflexivity.
Qed.

(** C10: rendering sorts the caller's list object in place: after a call on
    a non-empty list, the object holds the list sorted by size descending
    (stably) and every other object is unchanged. *)
Theorem print_results_table_sorts_in_place (h : heap) (r : nat) (l : list Location) :
  h r = l -> l <> [] ->
  fst (print_results_table h r) r = sort_by_size_desc l /\
  (forall r', r' <> r -> fst (print_results_table h r) r' = h r') /\
  StronglySorted size_ge (fst (print_results_table h r) r) /\
  Permutation l (fst (print_results_table h r) r).
Proof.
  intros Hr Hne. rewrite (print_results_table_nonempty h r l Hr Hne). simpl.
  unfold heap_upd. rewrite Nat.eqb_refl.
  split; [reflexivity|]. split.
  - intros r' Hr'. destruct (Nat.eqb_spec r' r); [contradiction|reflexivity].
  - split; [apply sort_by_size_desc_sorted|apply sort_by_size_desc_perm].
Qed.

(** The catalog order [A; B] is observed as [B; A] after rendering. *)
Lemma print_results_table_sorts_in_place_witness :
  (fun _ : nat => [loc_a; loc_b]) 0%nat = [loc_a; loc_b] /\ [loc_a; loc_b] <> [] /\
  fst (print_results_table (fun _ => [loc_a; loc_b]) 0%nat) 0%nat = [loc_b; loc_a] /\
  (fst (print_results_table (fun _ => [loc_a; loc_b]) 0%nat) 0%nat = sort_by_size_desc [loc_a; loc_b] /\
   (forall r', r' <> 0%nat -> fst (print_results_table (fun _ => [loc_a; loc_b]) 0%nat) r' = [loc_a; loc_b]) /\
   StronglySorted size_ge (fst (print_results_table (fun _ => [loc_a; loc_b]) 0%nat) 0%nat) /\
   Permutation [loc_a; loc_b] (fst (print_results_table (fun _ => [loc_a; loc_b]) 0%nat) 0%nat)).
Proof.
  split; [reflexivity|]. split; [discriminate|]. split; [vm_compute; reflexivity|].
  apply (print_results_table_sorts_in_place (fun _ => [loc_a; loc_b]) 0%nat);
    [reflexivity|discriminate].
Defined.

(** ** The probe *)

Lemma get_directory_size_success_exists fs p s :
  get_directory_size fs p = inr (s, true) -> fs_exists fs p = true.
Proof.
  unfold get_directory_size, py_try. destruct (fs_exists fs p); simpl; [reflexivity|].
  discriminate.
Qed.

(** The parts of the probe's contract that hold: a missing path gives
    (0, false) whatever the external utility would do, and so do a
    timeout, a failure to start, a non-zero exit status and a first field
    that is not an integer. *)
Lemma get_directory_size_failures :
  (forall fs p run', fs_exists fs p = false ->
     get_directory_size {| fs_exists := fs_exists fs; fs_is_dir := fs_is_dir fs;
                           fs_run := run'; fs_exists_err := fs_exists_err fs;
                           fs_exists_err_spec := fs_exists_err_spec fs |} p = inr (0, false)) /\
  (forall fs p, fs_run fs (du_argv p) = RunTimeout -> get_directory_size fs p = inr (0, false)) /\
  (forall fs p, fs_run fs (du_argv p) = RunOSError -> get_directory_size fs p = inr (0, false)) /\
  (forall fs p rc out, fs_run fs (du_argv p) = RunDone rc out -> rc <> 0 ->
     get_directory_size fs p = inr (0, false)) /\
  (forall fs p out tok rest, fs_run fs (du_argv p) = RunDone 0 out ->
     py_split_ws out = tok :: rest -> py_int tok = None ->
     get_directory_size fs p = inr (0, false)).
Proof.
  unfold get_directory_size, py_try, subprocess_run.
  split; [intros fs p run' H; simpl; now rewrite H|].
  split; [intros fs p H; rewrite H; now destruct (fs_exists fs p)|].
  split; [intros fs p H; rewrite H; now destruct (fs_exists fs p)|].
  split.
  - intros fs p rc out H Hrc. rewrite H. destruct (fs_exists fs p); simpl; [|reflexivity].
    destruct (Z.eqb_spec rc 0); [contradiction|reflexivity].
  - intros fs p out tok rest H Hs Hi. rewrite H.
    destruct (fs_exists fs p); simpl; [|reflexivity].
    rewrite Hs. simpl. unfold py_int_exc. now rewrite Hi.
Qed.

(** C4: a probe reports success exactly with the leading whitespace-separated
    field of [du]'s output, parsed as an integer, times 1024; "1048576"
    kilobytes give 1073741824 bytes, displayed "1.00 GB". *)
Theorem get_directory_size_kb :
  (forall fs p s, get_directory_size fs p = inr (s, true) ->
     exists out tok rest k, fs_run fs (du_argv p) = RunDone 0 out /\
       py_split_ws out = tok :: rest /\ py_int tok = Some k /\ s = k * 1024) /\
  (forall fs p out tok rest k, fs_exists fs p = true ->
     fs_run fs (du_argv p) = RunDone 0 out -> py_split_ws out = tok :: rest ->
     py_int tok = Some k -> get_directory_size fs p = inr (k * 1024, true)) /\
  (forall fs p, fs_exists fs p = true ->
     fs_run fs (du_argv p) = RunDone 0 ("1048576" ++ String tab p ++ nl) ->
     get_directory_size fs p = inr (1073741824, true)) /\
  gb_2f 1073741824 ++ " GB" = "1.00 GB".
Proof.
  assert (Hok : forall fs p out tok rest k, fs_exists fs p = true ->
     fs_run fs (du_argv p) = RunDone 0 out -> py_split_ws out = tok :: rest ->
     py_int tok = Some k -> get_directory_size fs p = inr (k * 1024, true)).
  { intros fs p out tok rest k He Hr Hs Hi.
    unfold get_directory_size, py_try, subprocess_run. rewrite He, Hr. simpl.
    rewrite Hs. simpl. unfold py_int_exc. now rewrite Hi. }
  split; [|split; [exact Hok|split]].
  - intros fs p s H. unfold get_directory_size, py_try in H.
    destruct (fs_exists fs p); simpl in H; [|discriminate].
    unfold subprocess_run in H.
    destruct (fs_run fs (du_argv p)) as [rc out| |]; simpl in H; try discriminate.
    destruct (Z.eqb_spec rc 0) as [->|]; [|discriminate].
    destruct (py_split_ws out) as [|tok rest] eqn:Es; simpl in H; [discriminate|].
    unfold py_int_exc in H. destruct (py_int tok) as [k|] eqn:Ei; simpl in H; [|discriminate].
    inversion H; subst. exists out, tok, rest, k. auto.
  - intros fs p He Hr. apply (Hok fs p _ "1048576" (py_split_ws (p ++ nl)) 1048576 He Hr);
      reflexivity.
  - vm_compute. reflexivity.
Qed.

(** C5 (code bug): [du] exiting with status 0 but printing nothing makes
    [result.stdout.split()[0]] raise IndexError, which the probe does not
    catch: the probe raises, and so does the whole scan. *)
Theorem get_directory_size_empty_output :
  fs_exists fs_empty_du "/tmp/e" = true /\
  fs_run fs_empty_du (du_argv "/tmp/e") = RunDone 0 "" /\
  get_directory_size fs_empty_du "/tmp/e" = inl IndexError /\
  scan_locations fs_empty_du [mkEntry "/tmp/e" "E" false] = inl IndexError.
Proof.
  vm_compute. repeat split.
Qed.

(** ** The scan *)

Lemma scan_step_spec fs e locs out st' :
  scan_step fs e (locs, out) = inr st' ->
  exists added, fst st' = (locs ++ added)%list /\
    List.length added = (if yields_record fs e then 1 else 0)%nat /\
    Forall (fun x => fs_exists fs (loc_path x) = true) added.
Proof.
  unfold scan_step, yields_record.
  destruct (get_directory_size fs (cat_path e)) as [ex|[s b]] eqn:G; simpl; [discriminate|].
  destruct b; simpl.
  - destruct (Z.ltb 0 s); simpl; intros H; inversion H; subst; simpl.
    + eexists; split; [reflexivity|]. split; [reflexivity|].
      constructor; [simpl; exact (get_directory_size_success_exists _ _ _ G)|constructor].
    + exists []. rewrite app_nil_r. auto.
  - destruct (fs_exists_err fs (cat_path e)); [unfold py_raise; discriminate|].
    destruct (fs_exists fs (cat_path e)) eqn:Ex; simpl; intros H; inversion H; subst; simpl.
    + eexists; split; [reflexivity|]. split; [reflexivity|].
      constructor; [simpl; exact Ex|constructor].
    + exists []. rewrite app_nil_r. auto.
Qed.

Lemma scan_loop_spec fs catalog st locs out :
  scan_loop fs catalog st = inr (locs, out) ->
  List.length locs = (List.length (fst st) + List.length (filter (yields_record fs) catalog))%nat /\
  (Forall (fun x => fs_exists fs (loc_path x) = true) (fst st) ->
   Forall (fun x => fs_exists fs (loc_path x) = true) locs).
Proof.
  revert st; induction catalog as [|e catalog IH]; intros [l0 o0] H; cbn [scan_loop] in H.
  - inversion H; subst. simpl. split; [lia|auto].
  - destruct (scan_step fs e (l0, o0)) as [ex|st'] eqn:Hs; cbn [py_bind] in H; [discriminate|].
    destruct (scan_step_spec _ _ _ _ _ Hs) as (added & Hst & Hlen & Hall).
    destruct (IH st' H) as [IHlen IHall]. rewrite Hst in IHlen, IHall.
    simpl. split.
    + rewrite IHlen, length_app, Hlen. destruct (yields_record fs e); simpl; lia.
    + intros H0. apply IHall. apply Forall_app. auto.
Qed.

(** C1 (corrected): every record collected by the scan is printed as one
    table row, and the records are those of the catalog entries whose probe
    succeeded with a positive size or failed on an existing path; no
    record has a path that does not exist. *)
Theorem scan_rows_count (fs : FS) (catalog : list CatalogEntry)
  (locs : list Location) (out : list string) :
  scan_locations fs catalog = inr (locs, out) ->
  List.length locs = List.length (filter (yields_record fs) catalog) /\
  Forall (fun x => fs_exists fs (loc_path x) = true) locs /\
  (forall h r, h r = locs -> locs <> [] ->
     exists rows,
       snd (print_results_table h r) =
         (table_header (sort_by_size_desc locs) ++ rows
          ++ [py_print ""; total_line (sum_sizes (sort_by_size_desc locs)); py_print ""])%list /\
       List.length rows = List.length locs).
Proof.
  unfold scan_locations. intros H.
  destruct (scan_loop fs catalog _) as [ex|[l o]] eqn:Hl; simpl in H; [discriminate|].
  inversion H; subst.
  destruct (scan_loop_spec _ _ _ _ _ Hl) as [Hlen Hall]. simpl in Hlen, Hall.
  split; [exact Hlen|]. split; [apply Hall; constructor|].
  intros h r Hr Hne. rewrite (print_results_table_nonempty h r locs Hr Hne), table_output_spec.
  eexists. split; [reflexivity|].
  rewrite length_map. symmetry. apply Permutation_length, sort_by_size_desc_perm.
Qed.

Lemma scan_rows_count_witness :
  scan_locations fs_ab catalog_ab =
    inr ([loc_a; loc_b], snd (match scan_locations fs_ab catalog_ab with
                             | inr st => st | inl _ => ([], []) end)) /\
  (List.length [loc_a; loc_b] = List.length (filter (yields_record fs_ab) catalog_ab) /\
   Forall (fun x => fs_exists fs_ab (loc_path x) = true) [loc_a; loc_b] /\
   (forall h r, h r = [loc_a; loc_b] -> [loc_a; loc_b] <> [] ->
      exists rows,
        snd (print_results_table h r) =
          (table_header (sort_by_size_desc [loc_a; loc_b]) ++ rows
           ++ [py_print ""; total_line (sum_sizes (sort_by_size_desc [loc_a; loc_b]));
               py_print ""])%list /\
        List.length rows = List.length [loc_a; loc_b])).
Proof.
  assert (E : scan_locations fs_ab catalog_ab =
    inr ([loc_a; loc_b], snd (match scan_locations fs_ab catalog_ab with
                             | inr st => st | inl _ => ([], []) end)))
    by (vm_compute; reflexivity).
  split; [exact E|]. exact (scan_rows_count fs_ab catalog_ab _ _ E).
Defined.

(** C1 counterexample: a path that exists and whose [du] succeeds with 0
    kilobytes is a successful probe, yet the scan keeps no record for it
    and the report prints no row. *)
Lemma scan_rows_count_counterexample :
  get_directory_size fs_zero_du "/tmp/e" = inr (0, true) /\
  (exists out, scan_locations fs_zero_du [mkEntry "/tmp/e" "E" false] = inr ([], out)) /\
  snd (print_results_table (fun _ => []) 0%nat) =
    [print_colored "No large directories found." Colors.YELLOW].
Proof.
  split; [vm_compute; reflexivity|]. split; [eexists; vm_compute; reflexivity|reflexivity].
Qed.

(** ** The batched find/du output *)

Lemma digit_char_facts d : 0 <= d < 10 ->
  digit_value (digit_char d) = Some d /\ py_isspace (digit_char d) = false /\
  Ascii.eqb (digit_char d) tab = false /\ Ascii.eqb (digit_char d) newline = false /\
  (forall l : list ascii,
     match digit_char d :: l with
     | "-"%char :: l0 => option_map Z.opp (parse_digits l0 0 false)
     | "+"%char :: l0 => parse_digits l0 0 false
     | l0 => parse_digits l0 0 false
     end = parse_digits (digit_char d :: l) 0 false).
Proof.
  intros Hd.
  assert (d = 0 \/ d = 1 \/ d = 2 \/ d = 3 \/ d = 4 \/ d = 5 \/ d = 6 \/ d = 7 \/ d = 8 \/ d = 9)
    as Hc by lia.
  repeat destruct Hc as [Hc|Hc]; subst d; repeat split; auto.
Qed.

Lemma list_ascii_of_string_app a b :
  list_ascii_of_string (a ++ b) = (list_ascii_of_string a ++ list_ascii_of_string b)%list.
Proof. induction a; simpl; congruence. Qed.

Lemma digits_go_S f n acc :
  digits_go (S f) n acc =
  if Z.eqb (n / 10) 0 then String (digit_char (n mod 10)) acc
  else digits_go f (n / 10) (String (digit_char (n mod 10)) acc).
Proof. reflexivity. Qed.

Lemma digits_go_spec f n acc :
  0 <= n < 10 ^ Z.of_nat (S f) ->
  exists l, list_ascii_of_string (digits_go (S f) n acc) = (l ++ list_ascii_of_string acc)%list /\
    l <> [] /\ Forall is_digit_char l /\ digits_value l 0 = n.
Proof.
  revert n acc; induction f as [|f IH]; intros n acc Hn;
    assert (Hm : 0 <= n mod 10 < 10) by (apply Z.mod_pos_bound; lia);
    destruct (digit_char_facts (n mod 10) Hm) as [Hdv _];
    rewrite digits_go_S.
  - assert (E : n / 10 = 0) by (apply Z.div_small; cbn in Hn; lia).
    rewrite E. cbn [Z.eqb list_ascii_of_string].
    exists [digit_char (n mod 10)].
    split; [reflexivity|]. split; [discriminate|]. split.
    + constructor; [|constructor]. exists (n mod 10). split; [exact Hm|reflexivity].
    + unfold digits_value, digit_val. cbn [fold_left]. rewrite Hdv.
      pose proof (Z.div_mod n 10). lia.
  - destruct (Z.eqb_spec (n / 10) 0) as [E|E].
    + cbn [list_ascii_of_string]. exists [digit_char (n mod 10)].
      split; [reflexivity|]. split; [discriminate|]. split.
      * constructor; [|constructor]. exists (n mod 10). split; [exact Hm|reflexivity].
      * unfold digits_value, digit_val. cbn [fold_left]. rewrite Hdv.
        pose proof (Z.div_mod n 10). lia.
    + destruct (IH (n / 10) (String (digit_char (n mod 10)) acc)) as (l & Hl & Hne & Hall & Hv).
      { split; [apply Z.div_pos; lia|].
        apply Z.div_lt_upper_bound; [lia|].
        rewrite Nat2Z.inj_succ, Z.pow_succ_r in Hn by lia. exact (proj2 Hn). }
      exists (l ++ [digit_char (n mod 10)])%list.
      rewrite Hl. cbn [list_ascii_of_string]. rewrite <- app_assoc. split; [reflexivity|].
      split; [destruct l; [contradiction|discriminate]|]. split.
      * apply Forall_app. split; [exact Hall|]. constructor; [|constructor].
        exists (n mod 10). split; [exact Hm|reflexivity].
      * unfold digits_value in *. rewrite fold_left_app. cbn [fold_left]. rewrite Hv.
        unfold digit_val. rewrite Hdv.
        pose proof (Z.div_mod n 10). lia.
Qed.

Lemma string_of_nonneg_spec n : 0 <= n ->
  exists l, list_ascii_of_string (string_of_nonneg n) = l /\
    l <> [] /\ Forall is_digit_char l /\ digits_value l 0 = n.
Proof.
  intros Hn. unfold string_of_nonneg.
  destruct (digits_go_spec (Z.to_nat (Z.log2 n)) n EmptyString) as (l & Hl & H1 & H2 & H3).
  - split; [exact Hn|].
    rewrite Nat2Z.inj_succ, Z2Nat.id by apply Z.log2_nonneg.
    destruct (Z.eq_dec n 0) as [->|Hn0]; [simpl; lia|].
    destruct (Z.log2_spec n) as [_ Hlt]; [lia|].
    apply Z.lt_le_trans with (2 ^ Z.succ (Z.log2 n)); [exact Hlt|].
    apply Z.pow_le_mono_l. lia.
  - exists l. rewrite Hl, app_nil_r. auto.
Qed.

Lemma lstrip_list_nonspace c l : py_isspace c = false -> lstrip_list (c :: l) = c :: l.
Proof. intros H. simpl. now rewrite H. Qed.

Lemma parse_digits_spec l acc b :
  Forall is_digit_char l -> (l <> [] \/ b = true) ->
  parse_digits l acc b = Some (digits_value l acc).
Proof.
  revert acc b; induction l as [|c l IH]; intros acc b Hall Hb.
  - destruct Hb as [Hb| ->]; [contradiction|reflexivity].
  - inversion Hall as [|? ? Hc Hl]; subst. destruct Hc as [d [Hd ->]].
    cbn [parse_digits]. destruct (digit_char_facts d Hd) as [Hdv _]. rewrite Hdv.
    rewrite IH by auto. unfold digits_value. cbn [fold_left]. unfold digit_val. now rewrite Hdv.
Qed.

Lemma digits_no_space l : Forall is_digit_char l -> Forall (fun c => py_isspace c = false) l.
Proof.
  apply Forall_impl. intros c [d [Hd ->]]. apply (digit_char_facts d Hd).
Qed.

Lemma string_of_nonneg_nonempty n : 0 <= n ->
  exists c s, string_of_nonneg n = String c s /\ is_digit_char c.
Proof.
  intros Hn. destruct (string_of_nonneg_spec n Hn) as (l & Hl & Hne & Hall & _).
  destruct (string_of_nonneg n) as [|c s]; simpl in Hl; subst l; [contradiction|].
  exists c, s. split; [reflexivity|]. now inversion Hall.
Qed.

Lemma py_int_string_of_nonneg n : 0 <= n -> py_int (string_of_nonneg n) = Some n.
Proof.
  intros Hn. destruct (string_of_nonneg_spec n Hn) as (l & Hl & Hne & Hall & Hv).
  unfold py_int, py_strip. rewrite Hl.
  destruct l as [|c l']; [contradiction|].
  pose proof (digits_no_space _ Hall) as Hsp.
  inversion Hall as [|? ? Hc _]; subst. destruct Hc as [d [Hd ->]].
  rewrite lstrip_list_nonspace by (inversion Hsp; assumption).
  assert (Hr : lstrip_list (rev (digit_char d :: l')) = rev (digit_char d :: l')).
  { apply Forall_rev in Hsp. destruct (rev (digit_char d :: l')) as [|c r]; [reflexivity|].
    inversion Hsp; subst. now apply lstrip_list_nonspace. }
  rewrite Hr, rev_involutive, list_ascii_of_string_of_list_ascii.
  destruct (digit_char_facts d Hd) as (_ & _ & _ & _ & ->).
  rewrite parse_digits_spec by (auto; left; discriminate). reflexivity.
Qed.

Lemma no_char_cons c x s : no_char c (String x s) = negb (Ascii.eqb x c) && no_char c s.
Proof. reflexivity. Qed.

Lemma no_char_app c a b : no_char c (a ++ b) = no_char c a && no_char c b.
Proof. unfold no_char. now rewrite list_ascii_of_string_app, forallb_app. Qed.

Lemma split_sep_go_none sep s cur :
  no_char sep s = true ->
  split_sep_go sep s cur = [string_of_list_ascii (rev cur ++ list_ascii_of_string s)].
Proof.
  revert cur; induction s as [|x s IH]; intros cur H; simpl.
  - now rewrite app_nil_r.
  - rewrite no_char_cons in H. apply andb_true_iff in H as [Hx H].
    destruct (Ascii.eqb x sep); [discriminate|]. rewrite IH by exact H.
    simpl. now rewrite <- app_assoc.
Qed.

Lemma split_sep_go_app sep s1 s2 cur :
  no_char sep s1 = true ->
  split_sep_go sep (s1 ++ String sep s2) cur =
  string_of_list_ascii (rev cur ++ list_ascii_of_string s1) :: split_sep_go sep s2 [].
Proof.
  revert cur; induction s1 as [|x s1 IH]; intros cur H; simpl.
  - rewrite Ascii.eqb_refl, app_nil_r. reflexivity.
  - rewrite no_char_cons in H. apply andb_true_iff in H as [Hx H].
    destruct (Ascii.eqb x sep); [discriminate|]. rewrite IH by exact H.
    simpl. now rewrite <- app_assoc.
Qed.

Lemma digits_no_char c n : 0 <= n -> (c = tab \/ c = newline) ->
  no_char c (string_of_nonneg n) = true.
Proof.
  intros Hn Hc. destruct (string_of_nonneg_spec n Hn) as (l & Hl & _ & Hall & _).
  unfold no_char. rewrite Hl. apply forallb_forall. intros x Hx.
  rewrite Forall_forall in Hall. destruct (Hall x Hx) as [d [Hd ->]].
  destruct (digit_char_facts d Hd) as (_ & _ & Ht & Hnl & _).
  destruct Hc as [->| ->]; [now rewrite Ht|now rewrite Hnl].
Qed.

Lemma du_line_split p kb : 0 <= kb -> no_char tab p = true ->
  py_split_sep tab (du_line (p, kb)) = [string_of_nonneg kb; p].
Proof.
  intros Hkb Hp. unfold py_split_sep, du_line. cbn [fst snd].
  rewrite split_sep_go_app by (apply digits_no_char; auto).
  rewrite split_sep_go_none by exact Hp. simpl.
  now rewrite !string_of_list_ascii_of_string.
Qed.

Lemma kept_entries_app min_size_gb es1 es2 :
  kept_entries min_size_gb (es1 ++ es2) =
  (kept_entries min_size_gb es1 ++ kept_entries min_size_gb es2)%list.
Proof. unfold kept_entries. now rewrite filter_app, map_app. Qed.

Lemma find_line_step_du min_size_gb p kb st :
  0 <= kb -> no_char tab p = true ->
  find_line_step min_size_gb (du_line (p, kb)) st =
  ((st ++ kept_entries min_size_gb [(p, kb)])%list, inr tt).
Proof.
  intros Hkb Hp. unfold find_line_step.
  destruct (string_of_nonneg_nonempty kb Hkb) as (c & s & Hs & _).
  pose proof (du_line_split p kb Hkb Hp) as Hsplit.
  assert (Hd : exists c' s', du_line (p, kb) = String c' s')
    by (exists c, (s ++ String tab p); unfold du_line; simpl; now rewrite Hs).
  destruct Hd as (c' & s' & Hd). rewrite Hd. rewrite <- Hd, Hsplit.
  cbn [List.length Nat.eqb nth fm_bind fm_lift]. unfold py_int_exc.
  rewrite py_int_string_of_nonneg by exact Hkb. cbn [py_ret].
  unfold kept_entries. cbn [filter fst snd].
  destruct (Z.ltb 0 kb); cbn [andb]; [|now rewrite app_nil_r].
  destruct (at_least_gb (kb * 1024) min_size_gb); cbn [map fst snd]; [|now rewrite app_nil_r].
  reflexivity.
Qed.

Lemma find_lines_loop_du min_size_gb es st :
  Forall (fun e => 0 <= snd e /\ no_char tab (fst e) = true) es ->
  find_lines_loop min_size_gb (map du_line es) st =
  ((st ++ kept_entries min_size_gb es)%list, inr tt).
Proof.
  revert st; induction es as [|[p kb] es IH]; intros st Hall; cbn [map find_lines_loop].
  - unfold fm_ret. now rewrite app_nil_r.
  - inversion Hall as [|? ? [Hkb Hp] Hrest]; subst. cbn [fst snd] in Hkb, Hp.
    unfold fm_bind at 1. rewrite find_line_step_du by assumption.
    rewrite IH by exact Hrest. rewrite <- app_assoc, <- kept_entries_app. reflexivity.
Qed.

Lemma split_concat_newline lines :
  lines <> [] -> Forall (fun l => no_char newline l = true) lines ->
  py_split_sep newline (String.concat nl lines) = lines.
Proof.
  unfold py_split_sep.
  induction lines as [|x [|y rest] IH]; intros Hne Hall; [contradiction| |].
  - inversion Hall; subst. simpl. rewrite split_sep_go_none by assumption.
    simpl. now rewrite string_of_list_ascii_of_string.
  - inversion Hall; subst.
    change (String.concat nl (x :: y :: rest)) with (x ++ String newline (String.concat nl (y :: rest))).
    rewrite split_sep_go_app by assumption. simpl.
    rewrite string_of_list_ascii_of_string. f_equal. apply IH; [discriminate|assumption].
Qed.

Lemma du_line_no_newline e : 0 <= snd e -> no_char newline (fst e) = true ->
  no_char newline (du_line e) = true.
Proof.
  intros Hkb Hp. unfold du_line. rewrite no_char_app, no_char_cons.
  rewrite digits_no_char by auto. rewrite Hp. reflexivity.
Qed.

Lemma concat_du_ends es :
  es <> [] -> Forall (fun e => path_ok (fst e) = true) es ->
  exists X p, String.concat nl (map du_line es) = X ++ p /\ path_ok p = true.
Proof.
  induction es as [|e [|e' rest] IH]; intros Hne Hall; [contradiction| |].
  - inversion Hall; subst. exists (string_of_nonneg (snd e) ++ String tab ""), (fst e).
    split; [|assumption]. simpl. unfold du_line. rewrite string_app_assoc. reflexivity.
  - inversion Hall; subst. destruct IH as (X & p & HX & Hp); [discriminate|assumption|].
    exists (du_line e ++ nl ++ X), p. split; [|exact Hp].
    change (String.concat nl (map du_line (e :: e' :: rest)))
      with (du_line e ++ nl ++ String.concat nl (map du_line (e' :: rest))).
    rewrite HX, !string_app_assoc. reflexivity.
Qed.

Lemma concat_du_starts es :
  Forall (fun e => 0 <= snd e) es -> es <> [] ->
  exists c Y, String.concat nl (map du_line es) = String c Y /\ py_isspace c = false.
Proof.
  intros Hall Hne. destruct es as [|e rest]; [contradiction|].
  inversion Hall; subst.
  destruct (string_of_nonneg_nonempty (snd e)) as (c & s & Hs & [d [Hd ->]]); [assumption|].
  exists (digit_char d).
  assert (Hl : exists Y, du_line e = String (digit_char d) Y)
    by (unfold du_line; rewrite Hs; eexists; reflexivity).
  destruct Hl as [Y HY].
  destruct rest as [|e' rest].
  - exists Y. simpl. split; [exact HY|apply (digit_char_facts d Hd)].
  - exists (Y ++ nl ++ String.concat nl (map du_line (e' :: rest))).
    change (String.concat nl (map du_line (e :: e' :: rest)))
      with (du_line e ++ nl ++ String.concat nl (map du_line (e' :: rest))).
    rewrite HY. split; [reflexivity|apply (digit_char_facts d Hd)].
Qed.

Lemma py_strip_find_du_stdout es :
  es <> [] -> Forall (fun e => 0 <= snd e /\ path_ok (fst e) = true) es ->
  py_strip (find_du_stdout es) = String.concat nl (map du_line es).
Proof.
  intros Hne Hall.
  destruct (concat_du_ends es Hne) as (X & p & HX & Hp).
  { eapply Forall_impl; [|exact Hall]. intros e [_ H]. exact H. }
  destruct (concat_du_starts es) as (c & Y & HY & Hc); [|exact Hne|].
  { eapply Forall_impl; [|exact Hall]. intros e [H _]. exact H. }
  unfold py_strip, find_du_stdout.
  set (S := String.concat nl (map du_line es)) in *.
  rewrite list_ascii_of_string_app.
  assert (Hfirst : list_ascii_of_string S = c :: list_ascii_of_string Y) by (rewrite HY; reflexivity).
  assert (H1 : lstrip_list (list_ascii_of_string S ++ list_ascii_of_string nl)%list =
                (list_ascii_of_string S ++ list_ascii_of_string nl)%list)
    by (rewrite Hfirst; apply lstrip_list_nonspace; exact Hc).
  rewrite H1. cbn [list_ascii_of_string nl]. rewrite rev_app_distr. cbn [rev app lstrip_list].
  change (py_isspace (ascii_of_nat 10)) with true. cbv iota.
  rewrite HX, list_ascii_of_string_app, rev_app_distr.
  case_eq (rev (list_ascii_of_string p)); [intros Er; unfold path_ok in Hp; rewrite Er in Hp;
    rewrite andb_false_r in Hp; discriminate|].
  intros c' r Er. unfold path_ok in Hp. rewrite Er in Hp.
  apply andb_true_iff in Hp as [_ Hp]. apply negb_true_iff in Hp.
  rewrite <- app_comm_cons, lstrip_list_nonspace by exact Hp.
  rewrite app_comm_cons, <- Er, <- rev_app_distr, rev_involutive, <- list_ascii_of_string_app.
  apply string_of_list_ascii_of_string.
Qed.

Lemma path_ok_chars p : path_ok p = true -> no_char tab p = true /\ no_char newline p = true.
Proof.
  unfold path_ok. intros H. rewrite !andb_true_iff in H. tauto.
Qed.

Lemma find_large_directories_du fs root min_size_gb es :
  fs_exists fs root = true -> fs_is_dir fs root = true ->
  fs_run fs (find_argv root) = RunDone 0 (find_du_stdout es) -> es <> [] ->
  Forall (fun e => 0 <= snd e /\ path_ok (fst e) = true) es ->
  find_large_directories fs root min_size_gb = inr (kept_entries min_size_gb es).
Proof.
  intros He Hd Hr Hne Hall.
  unfold find_large_directories, find_large_body. rewrite He, Hd. cbn [negb orb].
  unfold fm_bind at 1, fm_lift, subprocess_run. rewrite Hr. cbn [py_ret Z.eqb].
  rewrite py_strip_find_du_stdout by assumption.
  rewrite split_concat_newline.
  - rewrite find_lines_loop_du; [reflexivity|].
    eapply Forall_impl; [|exact Hall]. intros e [Hk Hp]. split; [exact Hk|].
    exact (proj1 (path_ok_chars _ Hp)).
  - destruct es; [contradiction|discriminate].
  - apply Forall_map. eapply Forall_impl; [|exact Hall]. intros e [Hk Hp].
    apply du_line_no_newline; [exact Hk|exact (proj2 (path_ok_chars _ Hp))].
Qed.

Lemma find_line_step_exc min_size_gb line st :
  snd (find_line_step min_size_gb line st) = inr tt \/
  snd (find_line_step min_size_gb line st) = inl ValueError.
Proof.
  unfold find_line_step. destruct line as [|c s]; [now left|].
  destruct (Nat.eqb _ 2); [|now left].
  unfold fm_bind, fm_lift, py_int_exc. destruct (py_int _) as [k|]; [|now right].
  cbn [py_ret]. destruct (Z.ltb 0 k); [|now left].
  destruct (at_least_gb _ _); now left.
Qed.

Lemma find_lines_loop_exc min_size_gb lines st :
  snd (find_lines_loop min_size_gb lines st) = inr tt \/
  snd (find_lines_loop min_size_gb lines st) = inl ValueError.
Proof.
  revert st; induction lines as [|line lines IH]; intros st; cbn [find_lines_loop]; [now left|].
  unfold fm_bind.
  pose proof (find_line_step_exc min_size_gb line st) as H.
  destruct (find_line_step min_size_gb line st) as [st' [e|u]]; cbn [snd] in H |- *.
  - destruct H as [H|H]; [discriminate|]. inversion H. now right.
  - apply IH.
Qed.

Lemma find_lines_loop_app min_size_gb pre rest st :
  find_lines_loop min_size_gb (pre ++ rest) st =
  let '(st', r) := find_lines_loop min_size_gb pre st in
  match r with
  | inl e => (st', inl e)
  | inr _ => find_lines_loop min_size_gb rest st'
  end.
Proof.
  revert st; induction pre as [|line pre IH]; intros st; cbn [app find_lines_loop].
  - unfold fm_ret. reflexivity.
  - unfold fm_bind. destruct (find_line_step min_size_gb line st) as [st' [e|u]].
    + reflexivity.
    + apply IH.
Qed.

(** ** Claims about find_large_directories *)

(** C6 (corrected): when the root exists and is a directory and the batched
    invocation exits with status 0, listing the root and its immediate
    subdirectories, and every listed path is ASCII, has no tab, newline or
    carriage return and does not end in whitespace (a path breaking this
    can cut the parse or add entries for its siblings, and a carriage
    return reaches the code as a newline), an immediate subdirectory is
    returned, with its size in
    bytes, exactly when its kilobyte size is positive and its size in GB is
    at least the threshold; any other returned entry is the root itself. *)
Theorem find_large_directories_subdirs (fs : FS) (root : string) (root_kb : Z)
  (subdirs : list (string * Z)) (min_size_gb : Q) :
  fs_exists fs root = true -> fs_is_dir fs root = true ->
  fs_run fs (find_argv root) = RunDone 0 (find_du_stdout ((root, root_kb) :: subdirs)) ->
  Forall (fun e => 0 <= snd e /\ path_ok (fst e) = true) ((root, root_kb) :: subdirs) ->
  exists res, find_large_directories fs root min_size_gb = inr res /\
    (forall p kb, In (p, kb) subdirs ->
       (In (p, kb * 1024) res <-> 0 < kb /\ at_least_gb (kb * 1024) min_size_gb = true)) /\
    (forall x, In x res ->
       fst x = root \/
       exists kb, In (fst x, kb) subdirs /\ snd x = kb * 1024 /\
                  0 < kb /\ at_least_gb (kb * 1024) min_size_gb = true).
Proof.
  intros He Hd Hr Hall.
  exists (kept_entries min_size_gb ((root, root_kb) :: subdirs)).
  split; [apply find_large_directories_du; auto; discriminate|].
  unfold kept_entries. split.
  - intros p kb Hin. split.
    + intros Hx. apply in_map_iff in Hx as ([p' kb'] & Heq & Hf).
      apply filter_In in Hf as [_ Hg]. cbn [fst snd] in Heq, Hg.
      inversion Heq as [[Hp Hk]]. assert (kb' = kb) as -> by lia.
      apply andb_true_iff in Hg as [H1 H2]. split; [lia|exact H2].
    + intros [Hk Ha]. apply (in_map (fun e => (fst e, snd e * 1024)) _ (p, kb)).
      apply filter_In. split; [now right|]. cbn [fst snd].
      apply andb_true_iff. split; [lia|exact Ha].
  - intros x Hx. apply in_map_iff in Hx as ([p kb] & <- & Hf).
    apply filter_In in Hf as [[Heq|Hin] Hg]; cbn [fst snd] in *.
    + left. now inversion Heq.
    + right. exists kb. apply andb_true_iff in Hg as [H1 H2].
      repeat split; auto. lia.
Qed.

(** C7 (corrected): [find_large_directories] never propagates an error; it
    returns an empty list when the root is missing or not a directory, when
    the batched invocation times out or fails to start, or when it exits
    with a non-zero status; when a line of the output has two tab-separated
    fields whose first is not an integer, it returns the entries collected
    from the lines before that one. *)
Theorem find_large_directories_failures :
  (forall fs root min_size_gb, exists res, find_large_directories fs root min_size_gb = inr res) /\
  (forall fs root min_size_gb,
     (fs_exists fs root = false \/ fs_is_dir fs root = false \/
      fs_run fs (find_argv root) = RunTimeout \/ fs_run fs (find_argv root) = RunOSError \/
      exists rc out, fs_run fs (find_argv root) = RunDone rc out /\ rc <> 0) ->
     find_large_directories fs root min_size_gb = inr []) /\
  (forall fs root min_size_gb out pre bad post f1 f2 acc,
     fs_exists fs root = true -> fs_is_dir fs root = true ->
     fs_run fs (find_argv root) = RunDone 0 out ->
     py_split_sep newline (py_strip out) = (pre ++ bad :: post)%list ->
     bad <> "" -> py_split_sep tab bad = [f1; f2] -> py_int f1 = None ->
     find_lines_loop min_size_gb pre [] = (acc, inr tt) ->
     find_large_directories fs root min_size_gb = inr acc).
Proof.
  split; [|split].
  - intros fs root min_size_gb. unfold find_large_directories, find_large_body.
    destruct (negb (fs_exists fs root) || negb (fs_is_dir fs root)); [now eexists|].
    unfold fm_bind at 1, fm_lift, subprocess_run.
    destruct (fs_run fs (find_argv root)) as [rc out| |]; cbn; try (eexists; reflexivity).
    destruct (Z.eqb rc 0); [|eexists; reflexivity].
    pose proof (find_lines_loop_exc min_size_gb (py_split_sep newline (py_strip out)) []) as H.
    destruct (find_lines_loop _ _ _) as [st [e|u]]; cbn [snd] in H.
    + destruct H as [H|H]; [discriminate|]. inversion H; subst. eexists; reflexivity.
    + eexists; reflexivity.
  - intros fs root min_size_gb Hc. unfold find_large_directories, find_large_body.
    destruct (fs_exists fs root) eqn:He; [|reflexivity].
    destruct (fs_is_dir fs root) eqn:Hd; [|reflexivity]. cbn [negb orb].
    unfold fm_bind at 1, fm_lift, subprocess_run.
    destruct Hc as [H|[H|[H|[H|(rc & out & H & Hrc)]]]];
      try (rewrite H in *; discriminate); rewrite H; cbn; try reflexivity.
    destruct (Z.eqb_spec rc 0); [contradiction|reflexivity].
  - intros fs root min_size_gb out pre bad post f1 f2 acc He Hd Hr Hs Hne Hb Hi Hpre.
    unfold find_large_directories, find_large_body. rewrite He, Hd. cbn [negb orb].
    unfold fm_bind at 1, fm_lift, subprocess_run. rewrite Hr. cbn [py_ret Z.eqb].
    rewrite Hs, find_lines_loop_app, Hpre. cbn [find_lines_loop].
    unfold fm_bind at 1.
    assert (Hstep : find_line_step min_size_gb bad acc = (acc, inl ValueError)).
    { unfold find_line_step. destruct bad as [|c s]; [contradiction|].
      rewrite Hb. cbn [List.length Nat.eqb nth]. unfold fm_bind, fm_lift, py_int_exc.
      now rewrite Hi. }
    rewrite Hstep. reflexivity.
Qed.

Lemma find_large_directories_subdirs_witness :
  fs_exists fs_r_large "/r" = true /\ fs_is_dir fs_r_large "/r" = true /\
  fs_run fs_r_large (find_argv "/r") =
    RunDone 0 (find_du_stdout (("/r", 2097152) :: [("/r/a", 1048576)])) /\
  Forall (fun e => 0 <= snd e /\ path_ok (fst e) = true) (("/r", 2097152) :: [("/r/a", 1048576)]) /\
  exists res, find_large_directories fs_r_large "/r" 1 = inr res /\
    (forall p kb, In (p, kb) [("/r/a", 1048576)] ->
       (In (p, kb * 1024) res <-> 0 < kb /\ at_least_gb (kb * 1024) 1 = true)) /\
    (forall x, In x res ->
       fst x = "/r" \/
       exists kb, In (fst x, kb) [("/r/a", 1048576)] /\ snd x = kb * 1024 /\
                  0 < kb /\ at_least_gb (kb * 1024) 1 = true).
Proof.
  assert (He : fs_exists fs_r_large "/r" = true) by reflexivity.
  assert (Hd : fs_is_dir fs_r_large "/r" = true) by reflexivity.
  assert (Hr : fs_run fs_r_large (find_argv "/r") =
    RunDone 0 (find_du_stdout (("/r", 2097152) :: [("/r/a", 1048576)]))) by reflexivity.
  assert (Hall : Forall (fun e => 0 <= snd e /\ path_ok (fst e) = true)
                        (("/r", 2097152) :: [("/r/a", 1048576)])).
  { repeat constructor; vm_compute; congruence. }
  split; [exact He|]. split; [exact Hd|]. split; [exact Hr|]. split; [exact Hall|].
  exact (find_large_directories_subdirs fs_r_large "/r" 2097152 [("/r/a", 1048576)] 1 He Hd Hr Hall).
Defined.

(** The root itself is reported among the "large subdirectories". *)
Example find_large_directories_reports_root :
  find_large_directories fs_r_large "/r" 1 = inr [("/r", 2147483648); ("/r/a", 1073741824)].
Proof. vm_compute. reflexivity. Qed.

(** C6 counterexample: with a threshold of 0 GB, the empty immediate
    subdirectory "/r/e" measures 0 GB, at or above the threshold, but the
    result is empty. *)
Lemma find_large_directories_subdirs_counterexample :
  fs_run fs_r_empty (find_argv "/r") = RunDone 0 (find_du_stdout [("/r", 0); ("/r/e", 0)]) /\
  at_least_gb (0 * 1024) 0 = true /\
  find_large_directories fs_r_empty "/r" 0 = inr [].
Proof. vm_compute. repeat split. Qed.

(** C7 counterexample: the directory name with a newline and a tab splits
    the output into an extra line "b\tc" whose first field is not an
    integer; the ValueError is swallowed and the entries collected before
    it are returned: a partial result, not an empty one. *)
Lemma find_large_directories_failures_counterexample :
  find_large_directories fs_r_odd "/r" 1 = inr [("/r", 2147483648); ("/r/a", 1073741824)] /\
  py_int "b" = None.
Proof. vm_compute. split; reflexivity. Qed.

(* ================================================================== *)
(** * Further properties of the script *)

(** ** The probe, continued *)

Lemma get_directory_size_false_zero fs p s :
  get_directory_size fs p = inr (s, false) -> s = 0.
Proof.
  unfold get_directory_size, py_try, subprocess_run.
  destruct (fs_exists fs p); simpl; [|intros H; inversion H; subst; reflexivity].
  destruct (fs_run fs (du_argv p)) as [rc out| |]; simpl; try (intros H; inversion H; subst; reflexivity).
  destruct (Z.eqb rc 0); simpl; [|intros H; inversion H; subst; reflexivity].
  destruct (py_split_ws out) as [|tok rest]; simpl; [discriminate|].
  unfold py_int_exc. destruct (py_int tok); simpl; intros H; inversion H; subst; reflexivity.
Qed.

Lemma get_directory_size_raises_iff fs p e :
  get_directory_size fs p = inl e <-> e = IndexError /\ du_blank fs p.
Proof.
  unfold du_blank. split.
  - unfold get_directory_size, py_try, subprocess_run.
    destruct (fs_exists fs p) eqn:He; simpl; [|discriminate].
    destruct (fs_run fs (du_argv p)) as [rc out| |] eqn:Hr; simpl; try discriminate.
    destruct (Z.eqb_spec rc 0) as [->|]; simpl; [|discriminate].
    destruct (py_split_ws out) as [|tok rest] eqn:Hs; simpl.
    + intros H. inversion H. eauto.
    + unfold py_int_exc. destruct (py_int tok); simpl; discriminate.
  - intros [-> [He [out [Hr Hs]]]].
    unfold get_directory_size, py_try, subprocess_run. rewrite He, Hr. simpl.
    rewrite Hs. reflexivity.
Qed.

(** X1: a probe that reports failure reports the size 0; the only
    exception that escapes the probe is IndexError, and it escapes exactly
    when the path exists and [du] exits with status 0 without printing any
    field. *)
Theorem get_directory_size_outcomes (fs : FS) (p : string) :
  (forall s, get_directory_size fs p = inr (s, false) -> s = 0) /\
  (forall e, get_directory_size fs p = inl e <-> e = IndexError /\ du_blank fs p).
Proof.
  split; [apply get_directory_size_false_zero|].
  intros e. apply get_directory_size_raises_iff.
Qed.

(** ** The scan, continued *)

Lemma scan_step_records fs e l0 o0 l1 o1 :
  scan_step fs e (l0, o0) = inr (l1, o1) ->
  exists added, l1 = (l0 ++ added)%list /\
    (if yields_record fs e then Forall2 (record_of fs) [e] added else added = []).
Proof.
  unfold scan_step, yields_record, py_bind, py_ret.
  destruct (get_directory_size fs (cat_path e)) as [ex|[s b]] eqn:G; [discriminate|].
  destruct b; cbn [andb negb].
  - destruct (Z.ltb_spec 0 s) as [Hpos|Hpos]; intros H; inversion H; subst.
    + eexists; split; [reflexivity|]. constructor; [|constructor].
      unfold record_of; cbn [loc_path loc_desc loc_sudo loc_size].
      split; [reflexivity|split; [reflexivity|split; [reflexivity|]]].
      left; split; assumption.
    + exists []. rewrite app_nil_r. auto.
  - assert (s = 0) as -> by exact (get_directory_size_false_zero _ _ _ G).
    destruct (fs_exists_err fs (cat_path e)); [unfold py_raise; discriminate|].
    destruct (fs_exists fs (cat_path e)) eqn:Ex; intros H; inversion H; subst.
    + eexists; split; [reflexivity|]. constructor; [|constructor].
      unfold record_of; cbn [loc_path loc_desc loc_sudo loc_size].
      split; [reflexivity|split; [reflexivity|split; [reflexivity|]]].
      right; split; [reflexivity|split; assumption].
    + exists []. rewrite app_nil_r. auto.
Qed.

Lemma scan_loop_records fs catalog l0 o0 locs out :
  scan_loop fs catalog (l0, o0) = inr (locs, out) ->
  exists added, locs = (l0 ++ added)%list /\
    Forall2 (record_of fs) (filter (yields_record fs) catalog) added.
Proof.
  revert l0 o0; induction catalog as [|e catalog IH]; intros l0 o0 H; cbn [scan_loop] in H.
  - inversion H; subst. exists []. rewrite app_nil_r. auto.
  - destruct (scan_step fs e (l0, o0)) as [ex|[l1 o1]] eqn:Hs; cbn [py_bind] in H;
      [discriminate|].
    destruct (scan_step_records _ _ _ _ _ _ Hs) as (a1 & -> & Ha1).
    destruct (IH _ _ H) as (a2 & -> & Ha2).
    exists (a1 ++ a2)%list. rewrite app_assoc. split; [reflexivity|].
    cbn [filter]. destruct (yields_record fs e).
    + inversion Ha1 as [|? ? ? ? Hr Hnil]; subst. inversion Hnil; subst.
      simpl. now constructor.
    + subst. exact Ha2.
Qed.

(** X2: the records of the scan are, in catalog order, one for each
    catalog entry whose probe succeeded with a positive size or failed on an
    existing path; each carries the entry's path, description and sudo flag,
    and the size the probe reported (0 for a failed probe). *)
Theorem scan_records_from_catalog (fs : FS) (catalog : list CatalogEntry)
  (locs : list Location) (out : list string) :
  scan_locations fs catalog = inr (locs, out) ->
  Forall2 (record_of fs) (filter (yields_record fs) catalog) locs.
Proof.
  unfold scan_locations. intros H.
  destruct (scan_loop fs catalog _) as [ex|[l o]] eqn:Hl; simpl in H; [discriminate|].
  inversion H; subst.
  destruct (scan_loop_records _ _ _ _ _ _ Hl) as (added & -> & Ha). exact Ha.
Qed.

Lemma scan_records_from_catalog_witness :
  scan_locations fs_ab catalog_ab =
    inr ([loc_a; loc_b], snd (match scan_locations fs_ab catalog_ab with
                             | inr st => st | inl _ => ([], []) end)) /\
  Forall2 (record_of fs_ab) (filter (yields_record fs_ab) catalog_ab) [loc_a; loc_b].
Proof.
  assert (E : scan_locations fs_ab catalog_ab =
    inr ([loc_a; loc_b], snd (match scan_locations fs_ab catalog_ab with
                             | inr st => st | inl _ => ([], []) end)))
    by (vm_compute; reflexivity).
  split; [exact E|]. exact (scan_records_from_catalog fs_ab catalog_ab _ _ E).
Defined.

Lemma scan_entry_exc_unique fs en e1 e2 :
  scan_entry_exc fs en e1 -> scan_entry_exc fs en e2 -> e1 = e2.
Proof.
  assert (X : du_blank fs (cat_path en) -> fs_exists_err fs (cat_path en) = true -> False).
  { intros [Hx _] Er. apply fs_exists_err_spec in Er. congruence. }
  intros [[-> H1]|[-> H1]] [[-> H2]|[-> H2]]; try reflexivity; exfalso; eauto.
Qed.

Lemma scan_step_cases fs en st :
  (exists e, scan_entry_exc fs en e /\ scan_step fs en st = inl e) \/
  ((forall e, ~ scan_entry_exc fs en e) /\ exists st', scan_step fs en st = inr st').
Proof.
  destruct st as [l o].
  destruct (get_directory_size fs (cat_path en)) as [ex|[s b]] eqn:G.
  - left. exists ex. pose proof G as G'. apply get_directory_size_raises_iff in G' as [-> Hb].
    split; [left; split; [reflexivity|exact Hb]|]. unfold scan_step. rewrite G. reflexivity.
  - assert (Hnb : ~ du_blank fs (cat_path en)).
    { intros Hb. assert (get_directory_size fs (cat_path en) = inl IndexError)
        by (apply get_directory_size_raises_iff; auto). congruence. }
    destruct b.
    + assert (Her : fs_exists_err fs (cat_path en) = false).
      { destruct (fs_exists_err fs (cat_path en)) eqn:Er; [|reflexivity].
        apply fs_exists_err_spec in Er. apply get_directory_size_success_exists in G. congruence. }
      right. split.
      * intros e [[_ Hb]|[_ He]]; [exact (Hnb Hb)|congruence].
      * unfold scan_step, py_bind. rewrite G. cbn [andb].
        destruct (Z.ltb 0 s); cbn [negb]; eexists; reflexivity.
    + destruct (fs_exists_err fs (cat_path en)) eqn:Er.
      * left. exists PermissionError. split; [right; split; [reflexivity|exact Er]|].
        unfold scan_step, py_bind. rewrite G. cbn [andb negb]. rewrite Er. reflexivity.
      * right. split.
        -- intros e [[_ Hb]|[_ He]]; [exact (Hnb Hb)|congruence].
        -- unfold scan_step, py_bind. rewrite G. cbn [andb negb]. rewrite Er.
           destruct (fs_exists fs (cat_path en)); eexists; reflexivity.
Qed.

Lemma scan_loop_raises fs catalog st e :
  scan_loop fs catalog st = inl e <->
  exists pre en post, catalog = (pre ++ en :: post)%list /\
    Forall (fun x => forall e', ~ scan_entry_exc fs x e') pre /\ scan_entry_exc fs en e.
Proof.
  revert st; induction catalog as [|en0 catalog IH]; intros st; cbn [scan_loop].
  - split; [discriminate|]. intros (pre & en & post & Hc & _). destruct pre; discriminate.
  - destruct (scan_step_cases fs en0 st) as [(e0 & He0 & Hs)|(Hno & st' & Hs)];
      rewrite Hs; cbn [py_bind].
    + split.
      * intros H. inversion H; subst. exists [], en0, catalog. auto.
      * intros (pre & en & post & Hc & Hpre & He).
        destruct pre as [|x pre]; simpl in Hc; inversion Hc; subst.
        -- f_equal. exact (scan_entry_exc_unique _ _ _ _ He0 He).
        -- inversion Hpre as [|? ? Hx]; subst. exfalso. exact (Hx _ He0).
    + rewrite IH. split.
      * intros (pre & en & post & -> & Hpre & He). exists (en0 :: pre), en, post.
        split; [reflexivity|]. split; [constructor; assumption|exact He].
      * intros (pre & en & post & Hc & Hpre & He).
        destruct pre as [|x pre]; simpl in Hc; inversion Hc; subst.
        -- exfalso. exact (Hno _ He).
        -- inversion Hpre; subst. exists pre, en, post. auto.
Qed.

Lemma scan_locations_exc fs catalog e :
  scan_locations fs catalog = inl e <->
  exists pre en post, catalog = (pre ++ en :: post)%list /\
    Forall (fun x => forall e', ~ scan_entry_exc fs x e') pre /\ scan_entry_exc fs en e.
Proof.
  unfold scan_locations. rewrite <- (scan_loop_raises fs catalog
    ([], [print_colored "Scanning system locations... This may take a few minutes." Colors.BLUE;
          py_print ""])).
  destruct (scan_loop _ _ _) as [ex|[l o]]; cbn [py_bind]; unfold py_ret;
    [tauto|split; intros H; discriminate].
Qed.


(** ** find_large_directories, continued *)

Lemma find_line_step_entries m line st :
  Forall (dir_entry_ok m) st -> Forall (dir_entry_ok m) (fst (find_line_step m line st)).
Proof.
  intros Hst. unfold find_line_step. destruct line as [|c s]; [exact Hst|].
  destruct (Nat.eqb _ 2); [|exact Hst].
  unfold fm_bind, fm_lift, py_int_exc. destruct (py_int _) as [k|]; [|exact Hst].
  cbn [py_ret]. destruct (Z.ltb_spec 0 k); [|exact Hst].
  destruct (at_least_gb (k * 1024) m) eqn:A; [|exact Hst].
  unfold fm_append. cbn [fst]. apply Forall_app. split; [exact Hst|].
  constructor; [|constructor]. unfold dir_entry_ok. cbn [snd].
  split; [lia|]. split; [apply Z.mod_mul; discriminate|exact A].
Qed.

Lemma find_lines_loop_entries m lines st :
  Forall (dir_entry_ok m) st -> Forall (dir_entry_ok m) (fst (find_lines_loop m lines st)).
Proof.
  revert st; induction lines as [|line lines IH]; intros st Hst; cbn [find_lines_loop];
    [exact Hst|].
  unfold fm_bind.
  pose proof (find_line_step_entries m line st Hst) as H1.
  destruct (find_line_step m line st) as [st' [e|u]]; cbn [fst] in H1 |- *;
    [exact H1|now apply IH].
Qed.

Lemma find_large_body_entries fs root m st :
  Forall (dir_entry_ok m) st -> Forall (dir_entry_ok m) (fst (find_large_body fs root m st)).
Proof.
  intros Hst. unfold find_large_body.
  destruct (negb (fs_exists fs root) || negb (fs_is_dir fs root)); [exact Hst|].
  unfold fm_bind, fm_lift, subprocess_run.
  destruct (fs_run fs (find_argv root)) as [rc out| |]; cbn; try exact Hst.
  destruct (Z.eqb rc 0); [now apply find_lines_loop_entries|exact Hst].
Qed.

(** X4: every entry [find_large_directories] returns, also a partial result
    cut short by an unparsable line, has a positive size in bytes, a multiple
    of 1024, whose value in GB is at least the threshold. *)
Theorem find_large_directories_entries (fs : FS) (root : string) (m : Q) (res : LargeDirs) :
  find_large_directories fs root m = inr res -> Forall (dir_entry_ok m) res.
Proof.
  unfold find_large_directories. intros H.
  pose proof (find_large_body_entries fs root m [] (Forall_nil _)) as Hb.
  destruct (find_large_body fs root m []) as [st [e|u]]; cbn [fst] in Hb.
  - destruct (probe_caught e); inversion H; subst; exact Hb.
  - inversion H; subst; exact Hb.
Qed.

Lemma find_large_directories_entries_witness :
  find_large_directories fs_r_odd "/r" 1 = inr [("/r", 2147483648); ("/r/a", 1073741824)] /\
  Forall (dir_entry_ok 1) [("/r", 2147483648); ("/r/a", 1073741824)].
Proof.
  assert (E : find_large_directories fs_r_odd "/r" 1 =
              inr [("/r", 2147483648); ("/r/a", 1073741824)]) by (vm_compute; reflexivity).
  split; [exact E|]. exact (find_large_directories_entries fs_r_odd "/r" 1 _ E).
Defined.

Lemma at_least_gb_mono m1 m2 s :
  (m1 <= m2)%Q -> at_least_gb s m2 = true -> at_least_gb s m1 = true.
Proof.
  unfold at_least_gb. intros H H2. apply Qle_bool_iff in H2. apply Qle_bool_iff.
  eapply Qle_trans; eassumption.
Qed.

Lemma find_line_step_threshold m1 m2 line st :
  (m1 <= m2)%Q ->
  find_line_step m2 line (filter (keep_gb m2) st) =
  (filter (keep_gb m2) (fst (find_line_step m1 line st)), snd (find_line_step m1 line st)).
Proof.
  intros Hm. unfold find_line_step. destruct line as [|c s]; [reflexivity|].
  destruct (Nat.eqb _ 2); [|reflexivity].
  unfold fm_bind, fm_lift, py_int_exc. destruct (py_int _) as [k|]; [|reflexivity].
  cbn [py_ret]. destruct (Z.ltb 0 k); [|reflexivity].
  unfold fm_append, fm_ret. cbn [fst snd].
  destruct (at_least_gb (k * 1024) m2) eqn:A2.
  - rewrite (at_least_gb_mono _ _ _ Hm A2). cbn [fst snd].
    rewrite filter_app. cbn [filter].
    match goal with |- context [keep_gb m2 (?p, k * 1024)] =>
      change (keep_gb m2 (p, k * 1024)) with (at_least_gb (k * 1024) m2) end.
    now rewrite A2.
  - destruct (at_least_gb (k * 1024) m1); cbn [fst snd]; [|reflexivity].
    rewrite filter_app. cbn [filter].
    match goal with |- context [keep_gb m2 (?p, k * 1024)] =>
      change (keep_gb m2 (p, k * 1024)) with (at_least_gb (k * 1024) m2) end.
    rewrite A2. now rewrite app_nil_r.
Qed.

Lemma find_lines_loop_threshold m1 m2 lines st :
  (m1 <= m2)%Q ->
  find_lines_loop m2 lines (filter (keep_gb m2) st) =
  (filter (keep_gb m2) (fst (find_lines_loop m1 lines st)), snd (find_lines_loop m1 lines st)).
Proof.
  intros Hm. revert st; induction lines as [|line lines IH]; intros st;
    cbn [find_lines_loop]; [reflexivity|].
  unfold fm_bind. rewrite (find_line_step_threshold m1 m2 line st Hm).
  destruct (find_line_step m1 line st) as [st' [e|u]]; cbn [fst snd]; [reflexivity|].
  apply IH.
Qed.

Lemma find_large_body_threshold fs root m1 m2 st :
  (m1 <= m2)%Q ->
  find_large_body fs root m2 (filter (keep_gb m2) st) =
  (filter (keep_gb m2) (fst (find_large_body fs root m1 st)),
   snd (find_large_body fs root m1 st)).
Proof.
  intros Hm. unfold find_large_body.
  destruct (negb (fs_exists fs root) || negb (fs_is_dir fs root)); [reflexivity|].
  unfold fm_bind, fm_lift, subprocess_run.
  destruct (fs_run fs (find_argv root)) as [rc out| |]; cbn; try reflexivity.
  destruct (Z.eqb rc 0); [now apply find_lines_loop_threshold|reflexivity].
Qed.

(** X5: raising the threshold only filters: for [m1 <= m2], the result for
    [m2] is the result for [m1] without the entries below [m2] GB, in the
    same order (also for a partial result). *)
Theorem find_large_directories_threshold (fs : FS) (root : string) (m1 m2 : Q)
  (res : LargeDirs) :
  (m1 <= m2)%Q -> find_large_directories fs root m1 = inr res ->
  find_large_directories fs root m2 = inr (filter (keep_gb m2) res).
Proof.
  intros Hm H. unfold find_large_directories in *.
  change (@nil (string * Z)) with (filter (keep_gb m2) []) at 1.
  rewrite (find_large_body_threshold fs root m1 m2 [] Hm).
  destruct (find_large_body fs root m1 []) as [st [e|u]]; cbn [fst snd] in *.
  - destruct (probe_caught e); inversion H; reflexivity.
  - inversion H; reflexivity.
Qed.

Lemma find_large_directories_threshold_witness :
  (1 <= 3 # 2)%Q /\
  find_large_directories fs_r_large "/r" 1 = inr [("/r", 2147483648); ("/r/a", 1073741824)] /\
  find_large_directories fs_r_large "/r" (3 # 2) =
    inr (filter (keep_gb (3 # 2)) [("/r", 2147483648); ("/r/a", 1073741824)]).
Proof.
  assert (Hm : (1 <= 3 # 2)%Q) by (vm_compute; discriminate).
  assert (E : find_large_directories fs_r_large "/r" 1 =
              inr [("/r", 2147483648); ("/r/a", 1073741824)]) by (vm_compute; reflexivity).
  split; [exact Hm|]. split; [exact E|].
  exact (find_large_directories_threshold fs_r_large "/r" 1 (3 # 2) _ Hm E).
Defined.

(** ** The table, continued *)

Lemma sort_by_size_desc_sorted_id l :
  StronglySorted size_ge l -> sort_by_size_desc l = l.
Proof.
  induction l as [|x l IH]; intros H; [reflexivity|].
  inversion H as [|? ? Hs Hf]; subst. cbn [sort_by_size_desc]. rewrite (IH Hs).
  destruct l as [|y l']; [reflexivity|]. cbn [insert_desc].
  inversion Hf as [|? ? Hy _]; subst. unfold size_ge in Hy.
  apply Z.leb_le in Hy. now rewrite Hy.
Qed.

(** X6: printing the table a second time on the same list prints the same
    output and leaves the list as the first call left it. *)
Theorem print_results_table_idempotent (h : heap) (r : nat) :
  let '(h', out) := print_results_table h r in
  snd (print_results_table h' r) = out /\
  (forall r', fst (print_results_table h' r) r' = h' r').
Proof.
  unfold print_results_table. destruct (h r) as [|x l] eqn:E.
  - rewrite E. split; reflexivity.
  - set (s := sort_by_size_desc (x :: l)).
    assert (Hs : heap_upd h r s r = s) by (unfold heap_upd; now rewrite Nat.eqb_refl).
    assert (Hne : s <> []).
    { intros Hn. pose proof (Permutation_length (sort_by_size_desc_perm (x :: l))) as Hl.
      fold s in Hl. rewrite Hn in Hl. discriminate. }
    assert (Hid : sort_by_size_desc s = s)
      by (apply sort_by_size_desc_sorted_id, sort_by_size_desc_sorted).
    rewrite Hs. destruct s as [|y t] eqn:Es; [contradiction|].
    rewrite <- Es in *. rewrite Hid. cbn [fst snd].
    assert (Hh : forall r', heap_upd (heap_upd h r s) r s r' = heap_upd h r s r').
    { intros r'. unfold heap_upd. now destruct (Nat.eqb r' r). }
    split; [|exact Hh].
    unfold table_output. rewrite Hh, Hs. reflexivity.
Qed.

(** ** main *)

Lemma io_bind_inr {A B} (m : IO A) (k : A -> IO B) out out' a :
  m out = (out', inr a) -> io_bind m k out = k a out'.
Proof. intros H. unfold io_bind. now rewrite H. Qed.

Lemma io_bind_inl {A B} (m : IO A) (k : A -> IO B) out out' s :
  m out = (out', inl s) -> io_bind m k out = (out', inl s).
Proof. intros H. unfold io_bind. now rewrite H. Qed.

Lemma io_bind_print {B} (chunk : string) (k : unit -> IO B) out :
  io_bind (io_print chunk) k out = k tt (out ++ [chunk])%list.
Proof. reflexivity. Qed.

Lemma io_bind_ret {A B} (a : A) (k : A -> IO B) out : io_bind (io_ret a) k out = k a out.
Proof. reflexivity. Qed.

Lemma io_bind_lift_inr {A B} (r : py_result A) (k : A -> IO B) out a :
  r = inr a -> io_bind (io_lift r) k out = k a out.
Proof. intros ->. reflexivity. Qed.

Ltac io_run := repeat (first [rewrite io_bind_print | rewrite io_bind_ret]; cbv beta).

Lemma io_iter_print_map {A} (f : A -> string) l out :
  io_iter (fun d => io_print (f d)) l out = ((out ++ map f l)%list, inr tt).
Proof.
  revert out; induction l as [|x l IH]; intros out; cbn [io_iter map].
  - unfold io_ret. now rewrite app_nil_r.
  - rewrite io_bind_print. cbv beta. rewrite IH. now rewrite <- app_assoc.
Qed.

Lemma io_iter_print l out : io_iter io_print l out = ((out ++ l)%list, inr tt).
Proof.
  rewrite <- (map_id l) at 2. apply (io_iter_print_map (fun x => x)).
Qed.

Lemma io_iter_ok {A} (f : A -> IO unit) l :
  (forall x out, exists out', f x out = (out', inr tt)) ->
  forall out, exists out', io_iter f l out = (out', inr tt).
Proof.
  intros Hf. induction l as [|x l IH]; intros out; cbn [io_iter].
  - eexists; reflexivity.
  - destruct (Hf x out) as [o Ho]. rewrite (io_bind_inr _ _ _ _ _ Ho). apply IH.
Qed.

Lemma scan_step_io_agree fs e l0 o0 o0' :
  match scan_step fs e (l0, o0) with
  | inl ex => exists o, scan_step_io fs l0 e o0' = (o, inl (Raise ex))
  | inr (l1, _) => exists o, scan_step_io fs l0 e o0' = (o, inr l1)
  end.
Proof.
  unfold scan_step, scan_step_io.
  cbv beta iota zeta delta [io_bind io_print io_lift io_ret].
  destruct (get_directory_size fs (cat_path e)) as [ex|[s b]]; cbn [py_bind];
    [eexists; reflexivity|].
  destruct b; cbn [andb negb].
  - destruct (Z.ltb 0 s); eexists; reflexivity.
  - destruct (fs_exists_err fs (cat_path e)); [eexists; reflexivity|].
    destruct (fs_exists fs (cat_path e)); eexists; reflexivity.
Qed.

Lemma scan_loop_io_agree fs catalog l0 o0 o0' :
  match scan_loop fs catalog (l0, o0) with
  | inl ex => exists o, scan_loop_io fs catalog l0 o0' = (o, inl (Raise ex))
  | inr (l, _) => exists o, scan_loop_io fs catalog l0 o0' = (o, inr l)
  end.
Proof.
  revert l0 o0 o0'; induction catalog as [|e catalog IH]; intros l0 o0 o0';
    cbn [scan_loop scan_loop_io].
  - eexists; reflexivity.
  - pose proof (scan_step_io_agree fs e l0 o0 o0') as H.
    destruct (scan_step fs e (l0, o0)) as [ex|[l1 o1]]; cbn [py_bind];
      destruct H as [o H].
    + rewrite (io_bind_inl _ _ _ _ _ H). eexists; reflexivity.
    + rewrite (io_bind_inr _ _ _ _ _ H). apply IH.
Qed.

Lemma scan_locations_io_agree fs catalog out0 :
  match scan_locations fs catalog with
  | inl ex => exists o, scan_locations_io fs catalog out0 = (o, inl (Raise ex))
  | inr (l, _) => exists o, scan_locations_io fs catalog out0 = (o, inr l)
  end.
Proof.
  unfold scan_locations, scan_locations_io. io_run.
  match goal with |- context [io_bind (scan_loop_io fs catalog []) _ ?o] =>
    pose proof (scan_loop_io_agree fs catalog []
      [print_colored "Scanning system locations... This may take a few minutes." Colors.BLUE;
       py_print ""] o) as H end.
  destruct (scan_loop fs catalog _) as [ex|[l o]]; cbn [py_bind py_ret]; destruct H as [o' H].
  - rewrite (io_bind_inl _ _ _ _ _ H). eexists; reflexivity.
  - rewrite (io_bind_inr _ _ _ _ _ H). cbv beta. io_run. eexists; reflexivity.
Qed.

Lemma find_large_directories_total fs root m :
  exists res, find_large_directories fs root m = inr res.
Proof.
  unfold find_large_directories, find_large_body.
  destruct (negb (fs_exists fs root) || negb (fs_is_dir fs root)); [now eexists|].
  unfold fm_bind at 1, fm_lift, subprocess_run.
  destruct (fs_run fs (find_argv root)) as [rc out| |]; cbn; try (eexists; reflexivity).
  destruct (Z.eqb rc 0); [|eexists; reflexivity].
  pose proof (find_lines_loop_exc m (py_split_sep newline (py_strip out)) []) as H.
  destruct (find_lines_loop _ _ _) as [st [e|u]]; cbn [snd] in H.
  - destruct H as [H|H]; [discriminate|]. inversion H; subst. eexists; reflexivity.
  - eexists; reflexivity.
Qed.

Lemma key_location_step_outcome fs kl out :
  (fs_exists_err fs (fst kl) = true /\
   key_location_step fs kl out = (out, inl (Raise PermissionError))) \/
  (fs_exists_err fs (fst kl) = false /\ exists out', key_location_step fs kl out = (out', inr tt)).
Proof.
  destruct kl as [root desc]. unfold key_location_step. cbn [fst].
  destruct (fs_exists_err fs root); [left; split; reflexivity|right; split; [reflexivity|]].
  destruct (fs_exists fs root); [|eexists; reflexivity].
  io_run.
  destruct (find_large_directories_total fs root (1 # 2)%Q) as [L HL].
  rewrite (io_bind_lift_inr _ _ _ _ HL). cbv beta.
  destruct L as [|x L]; [eexists; reflexivity|].
  io_run. rewrite (io_bind_inr _ _ _ _ _ (io_iter_print_map dir_line _ _)).
  eexists; reflexivity.
Qed.

Lemma key_locations_outcome fs l out :
  (Exists (fun kl => fs_exists_err fs (fst kl) = true) l /\
   exists o, io_iter (key_location_step fs) l out = (o, inl (Raise PermissionError))) \/
  (Forall (fun kl => fs_exists_err fs (fst kl) = false) l /\
   exists o, io_iter (key_location_step fs) l out = (o, inr tt)).
Proof.
  revert out; induction l as [|kl l IH]; intros out; cbn [io_iter].
  - right. split; [constructor|]. eexists; reflexivity.
  - destruct (key_location_step_outcome fs kl out) as [[Er Hk]|[Er [o Hk]]].
    + left. split; [now constructor|]. rewrite (io_bind_inl _ _ _ _ _ Hk). eexists; reflexivity.
    + rewrite (io_bind_inr _ _ _ _ _ Hk). destruct (IH o) as [[Hx Ho]|[Hf Ho]].
      * left. split; [now apply Exists_cons_tl|exact Ho].
      * right. split; [now constructor|exact Ho].
Qed.

Lemma insert_key_desc_perm {A} (key : A -> Z) x l :
  Permutation (x :: l) (insert_key_desc key x l).
Proof.
  induction l as [|y l IH]; simpl; [reflexivity|].
  destruct (Z.leb (key y) (key x)); [reflexivity|].
  rewrite perm_swap. now constructor.
Qed.

Lemma sort_key_desc_perm {A} (key : A -> Z) l : Permutation l (sort_key_desc key l).
Proof.
  induction l as [|x l IH]; simpl; [reflexivity|].
  rewrite <- insert_key_desc_perm. now constructor.
Qed.

Lemma insert_key_desc_sorted {A} (key : A -> Z) x l :
  Sorted (fun a b => key b <= key a) l ->
  Sorted (fun a b => key b <= key a) (insert_key_desc key x l).
Proof.
  induction l as [|y l IH]; simpl; intros Hs; [now repeat constructor|].
  destruct (Z.leb (key y) (key x)) eqn:E.
  - apply Z.leb_le in E. constructor; [exact Hs|]. constructor. exact E.
  - apply Z.leb_gt in E. inversion Hs as [|? ? Hs' Hh]; subst.
    constructor; [now apply IH|].
    destruct l as [|z l]; simpl; [constructor; lia|].
    inversion Hh; subst.
    destruct (Z.leb (key z) (key x)); constructor; lia.
Qed.

Lemma sort_key_desc_sorted {A} (key : A -> Z) l :
  StronglySorted (fun a b => key b <= key a) (sort_key_desc key l).
Proof.
  apply Sorted_StronglySorted.
  - intros a b c; lia.
  - induction l; simpl; [constructor|]. now apply insert_key_desc_sorted.
Qed.

Lemma StronglySorted_app_inv {A} (R : A -> A -> Prop) l1 l2 :
  StronglySorted R (l1 ++ l2) -> StronglySorted R l1 /\ Forall (fun x => Forall (R x) l2) l1.
Proof.
  induction l1 as [|x l1 IH]; intros H; cbn [app] in H.
  - split; constructor.
  - inversion H as [|? ? Hs Hf]; subst. destruct (IH Hs) as [H1 H2].
    apply Forall_app in Hf as [Hf1 Hf2].
    split; [now constructor|]. constructor; [exact Hf2|exact H2].
Qed.

(** X8: for a key location that exists, [main] lists, after the line
    announcing the scan and only when [find_large_directories] found
    something, at most 10 of the directories found with 0.5 GB: the
    largest ones (none left out is larger than one listed), by size from
    largest to smallest. *)
Theorem key_location_step_top10 (fs : FS) (root desc : string) (out0 : list string) :
  fs_exists fs root = true ->
  exists L shown rest,
    find_large_directories fs root (1 # 2)%Q = inr L /\
    Permutation L (shown ++ rest) /\
    List.length shown = Nat.min 10 (List.length L) /\
    StronglySorted (fun a b => snd b <= snd a) shown /\
    Forall (fun x => Forall (fun y => snd y <= snd x) rest) shown /\
    key_location_step fs (root, desc) out0 =
      ((out0 ++ print_colored ("Scanning " ++ desc ++ "...") Colors.CYAN ::
          match L with
          | [] => []
          | _ => print_colored ("Large directories in " ++ desc ++ ":") Colors.YELLOW ::
                   (map dir_line shown ++ [py_print ""])
          end)%list, inr tt).
Proof.
  intros He. destruct (find_large_directories_total fs root (1 # 2)%Q) as [L HL].
  exists L, (firstn 10 (sort_key_desc snd L)), (skipn 10 (sort_key_desc snd L)).
  pose proof (sort_key_desc_perm snd L) as Hp.
  pose proof (sort_key_desc_sorted snd L) as Hs.
  rewrite <- (firstn_skipn 10 (sort_key_desc snd L)) in Hs.
  apply StronglySorted_app_inv in Hs as [Hs1 Hs2].
  rewrite firstn_skipn.
  split; [exact HL|]. split; [exact Hp|].
  split; [rewrite length_firstn, (Permutation_length Hp); reflexivity|].
  split; [exact Hs1|]. split; [exact Hs2|].
  assert (Her : fs_exists_err fs root = false).
  { destruct (fs_exists_err fs root) eqn:Er; [|reflexivity].
    apply fs_exists_err_spec in Er. congruence. }
  unfold key_location_step. rewrite Her, He. io_run.
  rewrite (io_bind_lift_inr _ _ _ _ HL). cbv beta.
  destruct L as [|x L]; [reflexivity|].
  io_run. rewrite (io_bind_inr _ _ _ _ _ (io_iter_print_map dir_line _ _)).
  unfold io_print. rewrite <- !app_assoc. reflexivity.
Qed.

Lemma key_location_step_top10_witness :
  fs_exists fs_r_large "/r" = true /\
  exists L shown rest,
    find_large_directories fs_r_large "/r" (1 # 2)%Q = inr L /\
    Permutation L (shown ++ rest) /\
    List.length shown = Nat.min 10 (List.length L) /\
    StronglySorted (fun a b => snd b <= snd a) shown /\
    Forall (fun x => Forall (fun y => snd y <= snd x) rest) shown /\
    key_location_step fs_r_large ("/r", "R") [] =
      (([] ++ print_colored ("Scanning " ++ "R" ++ "...") Colors.CYAN ::
          match L with
          | [] => []
          | _ => print_colored ("Large directories in " ++ "R" ++ ":") Colors.YELLOW ::
                   (map dir_line shown ++ [py_print ""])
          end)%list, inr tt).
Proof.
  assert (He : fs_exists fs_r_large "/r" = true) by reflexivity.
  split; [exact He|]. exact (key_location_step_top10 fs_r_large "/r" "R" [] He).
Defined.

Lemma string_app_inv_l (p a b : string) : p ++ a = p ++ b -> a = b.
Proof.
  induction p as [|c p IH]; simpl; intros H; [exact H|]. injection H. exact IH.
Qed.

Lemma string_app_same_length (a b c d : string) :
  length a = length b -> a ++ c = b ++ d -> a = b.
Proof.
  revert b; induction a as [|x a IH]; intros [|y b]; simpl; intros Hl H;
    try discriminate; [reflexivity|].
  injection H as -> H. f_equal. apply (IH b); [lia|exact H].
Qed.

Lemma snapshot_found_line_inj n m : snapshot_found_line n = snapshot_found_line m -> n = m.
Proof.
  unfold snapshot_found_line, print_colored, py_print. intros H.
  rewrite !string_app_assoc in H.
  apply string_app_inv_l, string_app_inv_l, string_app_inv_l in H.
  assert (Hl : length (string_of_nonneg (Z.of_nat n)) = length (string_of_nonneg (Z.of_nat m))).
  { pose proof (f_equal length H) as Hl. rewrite !string_length_app in Hl. lia. }
  apply string_app_same_length in H; [|exact Hl].
  apply (f_equal py_int) in H. rewrite !py_int_string_of_nonneg in H by lia.
  injection H. lia.
Qed.

Lemma snapshot_found_line_other n :
  print_colored "Checking for Time Machine local snapshots..." Colors.BLUE <> snapshot_found_line n /\
  print_colored "   These can take up significant space. To delete them:" Colors.YELLOW
    <> snapshot_found_line n /\
  print_colored "   sudo tmutil deletelocalsnapshots <snapshot-date>" Colors.CYAN
    <> snapshot_found_line n /\
  print_colored "   Or delete all: sudo tmutil deletelocalsnapshots /" Colors.CYAN
    <> snapshot_found_line n /\
  py_print "" <> snapshot_found_line n.
Proof.
  unfold snapshot_found_line, print_colored, py_print, Colors.YELLOW, Colors.BLUE,
    Colors.CYAN, ESC, WARN_SIGN, nl.
  repeat split; cbn [append string_of_bytes]; discriminate.
Qed.

Lemma snapshot_lines_blank stdout : py_strip stdout = "" -> snapshot_lines stdout = [].
Proof. intros H. unfold snapshot_lines. rewrite H. reflexivity. Qed.

Lemma check_snapshots_outcome fs spawn out :
  (tmutil_spawn_other fs spawn /\
   exists o, check_snapshots fs spawn out = (o, inl (Raise OSError))) \/
  (~ tmutil_spawn_other fs spawn /\ exists o, check_snapshots fs spawn out = (o, inr tt)).
Proof.
  unfold check_snapshots, tmutil_spawn_other. io_run.
  destruct (fs_run fs tmutil_argv) as [rc stdout| |].
  - right. split; [intros [H _]; discriminate|].
    destruct (Z.eqb rc 0 && negb (String.eqb (py_strip stdout) "")); [|eexists; reflexivity].
    destruct (snapshot_lines stdout); eexists; reflexivity.
  - right. split; [intros [H _]; discriminate|]. eexists; reflexivity.
  - destruct (spawn tmutil_argv).
    + right. split; [intros [_ H]; discriminate|]. eexists; reflexivity.
    + right. split; [intros [_ H]; discriminate|]. eexists; reflexivity.
    + left. split; [auto|]. eexists; reflexivity.
Qed.

(** X9: the Time Machine check prints the warning with the count [n]
    exactly when tmutil exits with status 0 and [n > 0] lines of its
    stripped output start with "com.apple.TimeMachine"; the check raises
    (OSError) only when tmutil cannot be started for another reason than a
    missing executable or a permission error, and otherwise completes. *)
Theorem check_snapshots_warning (fs : FS) (spawn : list string -> spawn_error) (n : nat) :
  (In (snapshot_found_line n) (fst (check_snapshots fs spawn [])) <->
   exists stdout, fs_run fs tmutil_argv = RunDone 0 stdout /\
     n = List.length (snapshot_lines stdout) /\ (0 < n)%nat) /\
  ((snd (check_snapshots fs spawn []) = inl (Raise OSError) /\ tmutil_spawn_other fs spawn) \/
   (snd (check_snapshots fs spawn []) = inr tt /\ ~ tmutil_spawn_other fs spawn)).
Proof.
  pose proof (snapshot_found_line_other n) as (N1 & N2 & N3 & N4 & N5).
  split.
  2:{ destruct (check_snapshots_outcome fs spawn []) as [[Ht [o Ho]]|[Ht [o Ho]]];
        rewrite Ho; [left|right]; auto. }
  unfold check_snapshots. io_run.
  destruct (fs_run fs tmutil_argv) as [rc stdout| |] eqn:R.
  - destruct (Z.eqb_spec rc 0) as [->|Hrc]; cbn [andb].
    + destruct (String.eqb_spec (py_strip stdout) "") as [Hz|Hz]; cbn [negb].
      * cbn [fst app io_ret In]. split; [intros [H|[]]; contradiction|].
        intros (s & Hs & Hn & Hp). injection Hs as <-.
        rewrite (snapshot_lines_blank _ Hz) in Hn. cbn in Hn. lia.
      * destruct (snapshot_lines stdout) as [|l1 ls] eqn:Hsl.
        -- cbn [fst app io_ret In]. split; [intros [H|[]]; contradiction|].
           intros (s & Hs & Hn & Hp). injection Hs as <-.
           rewrite Hsl in Hn. cbn in Hn. lia.
        -- io_run. cbn [fst app io_print In]. split.
           ++ intros [H|[H|[H|[H|[H|[H|[]]]]]]]; try contradiction.
              apply snapshot_found_line_inj in H. exists stdout. rewrite Hsl.
              split; [reflexivity|]. split; [now symmetry|]. subst. cbn. lia.
           ++ intros (s & Hs & Hn & Hp). injection Hs as <-. rewrite Hsl in Hn.
              right; left. now rewrite Hn.
    + cbn [fst app io_ret In]. split; [intros [H|[]]; contradiction|].
      intros (s & Hs & _). injection Hs as Hs. contradiction.
  - cbn [fst app io_ret In]. split; [intros [H|[]]; contradiction|].
    intros (s & Hs & _). discriminate.
  - destruct (spawn tmutil_argv); cbn [fst app io_ret io_raise In];
      (split; [intros [H|[]]; contradiction|]);
      intros (s & Hs & _); discriminate.
Qed.

Lemma main_not_darwin platform home fs spawn :
  platform <> "darwin" ->
  main platform home fs spawn [] =
    ([banner; print_colored "        SYSTEM DATA LOCATION FINDER FOR macOS" (Colors.BOLD ++ Colors.BLUE);
      banner; py_print ""; not_macos_warning], inl (SysExit 1)).
Proof.
  intros Hp. apply String.eqb_neq in Hp. unfold main. io_run. rewrite Hp. reflexivity.
Qed.

(** X10: on any other platform than macOS, the script prints its banner
    and the warning and exits with status 1, whatever the filesystem: it
    probes nothing and runs no command. *)
Theorem program_not_macos (exc_str : py_exc -> string) (platform home : string) (fs : FS)
  (spawn : list string -> spawn_error) :
  platform <> "darwin" ->
  program exc_str platform home fs spawn =
    ([banner; print_colored "        SYSTEM DATA LOCATION FINDER FOR macOS" (Colors.BOLD ++ Colors.BLUE);
      banner; py_print ""; not_macos_warning], 1).
Proof.
  intros Hp. unfold program. rewrite (main_not_darwin _ _ _ _ Hp). reflexivity.
Qed.

Lemma program_not_macos_witness :
  "linux" <> "darwin" /\
  program (fun _ => "") "linux" "/Users/u" fs_ab (fun _ => SpawnOther) =
    ([banner; print_colored "        SYSTEM DATA LOCATION FINDER FOR macOS" (Colors.BOLD ++ Colors.BLUE);
      banner; py_print ""; not_macos_warning], 1).
Proof.
  assert (Hp : "linux" <> "darwin") by discriminate.
  split; [exact Hp|]. exact (program_not_macos (fun _ => "") "linux" "/Users/u" fs_ab _ Hp).
Defined.

Lemma main_darwin home fs spawn :
  (exists e o, scan_system_data_locations home fs = inl e /\
     main "darwin" home fs spawn [] = (o, inl (Raise e))) \/
  (exists st, scan_system_data_locations home fs = inr st /\
     ((Exists (fun kl => fs_exists_err fs (fst kl) = true) (key_locations home) /\
       exists o, main "darwin" home fs spawn [] = (o, inl (Raise PermissionError))) \/
      (Forall (fun kl => fs_exists_err fs (fst kl) = false) (key_locations home) /\
       ((tmutil_spawn_other fs spawn /\
         exists o, main "darwin" home fs spawn [] = (o, inl (Raise OSError))) \/
        (~ tmutil_spawn_other fs spawn /\
         exists o, main "darwin" home fs spawn [] = (o, inr tt)))))).
Proof.
  unfold main. io_run.
  replace (negb (String.eqb "darwin" "darwin")) with false by reflexivity.
  io_run.
  match goal with |- context [io_bind (scan_system_data_locations_io home fs) _ ?o] =>
    pose proof (scan_locations_io_agree fs (system_locations home) o) as Hs end.
  unfold scan_system_data_locations, scan_system_data_locations_io.
  destruct (scan_locations fs (system_locations home)) as [e|[locs o']];
    destruct Hs as [o2 Hs].
  - left. exists e, o2. split; [reflexivity|]. now rewrite (io_bind_inl _ _ _ _ _ Hs).
  - right. exists (locs, o'). split; [reflexivity|].
    rewrite (io_bind_inr _ _ _ _ _ Hs). cbv beta. io_run.
    rewrite (io_bind_inr _ _ _ _ _ (io_iter_print _ _)). cbv beta. io_run.
    match goal with |- context [io_bind (io_iter (key_location_step fs) (key_locations home)) _ ?o] =>
      destruct (key_locations_outcome fs (key_locations home) o)
        as [[Hx [o3 Hk]]|[Hf [o3 Hk]]] end.
    + left. split; [exact Hx|]. rewrite (io_bind_inl _ _ _ _ _ Hk). eexists; reflexivity.
    + right. split; [exact Hf|].
      rewrite (io_bind_inr _ _ _ _ _ Hk). cbv beta.
      destruct (check_snapshots_outcome fs spawn o3) as [[Ht [o4 Hc]]|[Ht [o4 Hc]]].
      * left. split; [exact Ht|]. rewrite (io_bind_inl _ _ _ _ _ Hc). eexists; reflexivity.
      * right. split; [exact Ht|]. rewrite (io_bind_inr _ _ _ _ _ Hc). cbv beta. io_run.
        eexists; reflexivity.
Qed.

Lemma scan_loop_exists_raises fs catalog st :
  Exists (fun en => exists e, scan_entry_exc fs en e) catalog ->
  exists e, scan_loop fs catalog st = inl e.
Proof.
  revert st; induction catalog as [|en catalog IH]; intros st Hx; [inversion Hx|].
  cbn [scan_loop].
  destruct (scan_step_cases fs en st) as [(e0 & _ & Hs)|(Hno & st' & Hs)];
    rewrite Hs; cbn [py_bind].
  - eexists; reflexivity.
  - apply IH. inversion Hx as [? ? [e He]|]; subst; [exfalso; exact (Hno _ He)|assumption].
Qed.

(** X11: on macOS the script exits with status 1, its output ending with
    the "Unexpected error" line, whenever some catalog location makes the
    scan raise (it exists and its [du] exits with status 0 without printing
    any field, or its probe failed and its existence check raises
    PermissionError), or the existence check of some key location raises
    PermissionError, or tmutil cannot be started for another reason than a
    missing executable or a permission error. *)
Theorem program_exit_status (exc_str : py_exc -> string) (home : string) (fs : FS)
  (spawn : list string -> spawn_error) :
  Exists (fun en => exists e, scan_entry_exc fs en e) (system_locations home) \/
  Exists (fun kl => fs_exists_err fs (fst kl) = true) (key_locations home) \/
  tmutil_spawn_other fs spawn ->
  snd (program exc_str "darwin" home fs spawn) = 1 /\
  exists e, last (fst (program exc_str "darwin" home fs spawn)) "" =
              print_colored (nl ++ "Unexpected error: " ++ exc_str e) Colors.RED.
Proof.
  intros Hc. unfold program.
  destruct (main_darwin home fs spawn)
    as [(e & o & Es & Hm)|(st & Es & [[Hk [o Hm]]|[Hk [[Ht [o Hm]]|[Ht [o Hm]]]]])];
    rewrite Hm; cbn [fst snd]; try (split; [reflexivity|eexists; apply last_last]).
  exfalso. destruct Hc as [Hx|[Hx|Hx]].
  - destruct (scan_loop_exists_raises fs (system_locations home) ([], []) Hx) as [e He].
    apply scan_loop_raises, scan_locations_exc in He.
    unfold scan_system_data_locations in Es. congruence.
  - apply Exists_exists in Hx as (x & Hin & Hx). rewrite Forall_forall in Hk.
    rewrite (Hk x Hin) in Hx. discriminate.
  - contradiction.
Qed.

Lemma program_exit_status_witness :
  (Exists (fun en => exists e, scan_entry_exc (fs_of [] (fun _ => RunOSError)) en e) (system_locations "/Users/u") \/
   Exists (fun kl => fs_exists_err (fs_of [] (fun _ => RunOSError)) (fst kl) = true) (key_locations "/Users/u") \/
   tmutil_spawn_other (fs_of [] (fun _ => RunOSError)) (fun _ => SpawnOther)) /\
  (snd (program (fun _ : py_exc => "") "darwin" "/Users/u" (fs_of [] (fun _ => RunOSError)) (fun _ => SpawnOther)) = 1 /\
   exists e, last (fst (program (fun _ : py_exc => "") "darwin" "/Users/u" (fs_of [] (fun _ => RunOSError)) (fun _ => SpawnOther))) "" =
               print_colored (nl ++ "Unexpected error: " ++ (fun _ : py_exc => "") e) Colors.RED).
Proof.
  assert (Hc : Exists (fun en => exists e, scan_entry_exc (fs_of [] (fun _ => RunOSError)) en e) (system_locations "/Users/u") \/
               Exists (fun kl => fs_exists_err (fs_of [] (fun _ => RunOSError)) (fst kl) = true) (key_locations "/Users/u") \/
               tmutil_spawn_other (fs_of [] (fun _ => RunOSError)) (fun _ => SpawnOther))
    by (right; right; split; vm_compute; reflexivity).
  split; [exact Hc|]. exact (program_exit_status (fun _ : py_exc => "") "/Users/u" (fs_of [] (fun _ => RunOSError)) _ Hc).
Defined.
